(** * Lacework events connector: polling, pagination and forwarding

    A shallow embedding of [Lacework/lacework_module/lacework_connector.py]
    (class [LaceworkEventsTrigger]) and the properties of its drain cycle
    ([forward_next_batches]) and of its scheduler ([run]).

    Python values are an inductive type, the connector's effects (the
    persisted context, the clock, the vendor client, the intake, the log and
    the metrics) are threaded through a state-and-exception monad, and the
    outside world is an oracle indexed by the number of calls made so far. *)

From Stdlib Require Import ZArith QArith String List Lia Permutation.
From Stdlib Require Import OrderedType OrderedTypeEx.
From stdpp Require Import base option gmap strings.
Import ListNotations.

Set Warnings "-register-all".
Local Open Scope Z_scope.
Local Open Scope string_scope.
Local Open Scope list_scope.

(** ** Python values *)

(** The values the connector handles: what [response.json()] can return, and
    the one-element tuple that line 145 stores in [has_more_messages]. A
    dictionary keeps its keys in insertion order; lookup takes the first
    binding of a key. *)
Inductive pyval :=
| PyNone
| PyBool (b : bool)
| PyInt (z : Z)
| PyFloat (q : Q)
| PyStr (s : string)
| PyList (l : list pyval)
| PyTuple (l : list pyval)
| PyDict (kvs : list (string * pyval)).

(** Exceptions, by the classes the code names or raises. [HTTPError] is
    [requests.exceptions.HTTPError] and [BaseHTTPError] is
    [urllib3.exceptions.HTTPError] (line 9), each standing for the class and
    its subclasses; [OtherException] is any other subclass of [Exception]. *)
Inductive exn :=
| HTTPError
| BaseHTTPError
| AttributeError (attr : string)
| KeyError (key : string)
| TypeError
| ValueError
| OtherException (name : string).

(** [bool(v)] *)
Definition truthy (v : pyval) : bool :=
  match v with
  | PyNone => false
  | PyBool b => b
  | PyInt z => negb (Z.eqb z 0)
  | PyFloat q => negb (Z.eqb (Qnum q) 0)
  | PyStr s => negb (String.eqb s "")
  | PyList l | PyTuple l => match l with [] => false | _ => true end
  | PyDict kvs => match kvs with [] => false | _ => true end
  end.

(** [v is None] *)
Definition is_None (v : pyval) : bool :=
  match v with PyNone => true | _ => false end.

Fixpoint assoc (k : string) (kvs : list (string * pyval)) : option pyval :=
  match kvs with
  | [] => None
  | (k', v) :: rest => if String.eqb k k' then Some v else assoc k rest
  end.

(** [d.get(k, dflt)]: only a dict has the method. *)
Definition py_get (d : pyval) (k : string) (dflt : pyval) : exn + pyval :=
  match d with
  | PyDict kvs => inr (default dflt (assoc k kvs))
  | _ => inl (AttributeError "get")
  end.

(** [item[k]] with a string key. *)
Definition py_subscript (d : pyval) (k : string) : exn + pyval :=
  match d with
  | PyDict kvs => match assoc k kvs with Some v => inr v | None => inl (KeyError k) end
  | _ => inl TypeError
  end.

(** [v.data]: none of the values a response can hold has the attribute. *)
Definition py_getattr_data (v : pyval) : exn + pyval :=
  match v with
  | PyNone | PyBool _ | PyInt _ | PyFloat _ | PyStr _
  | PyList _ | PyTuple _ | PyDict _ => inl (AttributeError "data")
  end.

(** [len(v)] *)
Definition py_len (v : pyval) : exn + nat :=
  match v with
  | PyList l | PyTuple l => inr (List.length l)
  | PyDict kvs => inr (List.length kvs)
  | PyStr s => inr (String.length s)
  | _ => inl TypeError
  end.

Fixpoint chars (s : string) : list pyval :=
  match s with
  | EmptyString => []
  | String c rest => PyStr (String c EmptyString) :: chars rest
  end.

(** [iter(v)]: the elements a [for] loop or [max] sees. *)
Definition py_iter (v : pyval) : exn + list pyval :=
  match v with
  | PyList l | PyTuple l => inr l
  | PyDict kvs => inr (map (fun kv => PyStr (fst kv)) kvs)
  | PyStr s => inr (chars s)
  | _ => inl TypeError
  end.

(** [int(x)] on a float: truncation towards zero. *)
Definition py_int (q : Q) : Z := Z.quot (Qnum q) (Zpos (Qden q)).

(** ** Configuration, log lines, events and the outside world *)

Record LaceworkConfiguration := {
  frequency : Z;
  exclude_types : option (list string);
  chunk_size : Z;
  intake_key : string
}.

Definition default_configuration (key : string) : LaceworkConfiguration :=
  {| frequency := 60; exclude_types := None; chunk_size := 1000; intake_key := key |}.

(** The messages of [self.log] and [self.log_exception], with the values
    their f-strings interpolate. *)
Inductive log_message :=
| MsgStarted
| MsgStopped
| MsgFailedNextBatch
| MsgUnknownException
| MsgRequestFailed (status_code : Z) (reason : string)
| MsgSendingBatch (n : nat)
| MsgNoMessages.

Inductive metric_op :=
| EVENTS_LAG_set (lag : Z)
| INCOMING_EVENTS_inc (n : nat)
| OUTCOMING_EVENTS_inc (n : nat)
| FORWARD_EVENTS_DURATION_observe (duration : Z).

(** What the connector does to its collaborators, in the order it does it. *)
Inductive event :=
| EvLog (level : string) (m : log_message)
| EvLogException (ex : exn) (m : log_message)
| EvListAlerts (parameters : list (string * pyval))
| EvPush (events : list string)
| EvSleep (seconds : Z)
| EvCursorSaved (cursor : pyval)
| EvMetric (label : string) (op : metric_op).

Record response := {
  ok : bool;
  status_code : Z;
  reason : string;
  json : exn + pyval
}.

Inductive client_result :=
| ClientRaises (ex : exn)
| ClientResponse (r : response).

(** The answers of the collaborators: the n-th reading of [self.running] and
    of [time.time()], the n-th answer of [client.list_alerts], and whether
    the n-th call of [push_events_to_intakes] raises. *)
Record world := {
  w_running : nat -> bool;
  w_clock : nat -> Q;
  w_client : nat -> client_result;
  w_push : nat -> option exn
}.

(** The connector's state: the persisted [context.json], how many answers
    of each collaborator were consumed, and the events so far. *)
Record state := {
  context : gmap string pyval;
  n_running : nat;
  n_clock : nat;
  n_client : nat;
  n_push : nat;
  trace : list event
}.

Definition initial_state (ctx : gmap string pyval) : state :=
  {| context := ctx; n_running := 0; n_clock := 0; n_client := 0; n_push := 0;
     trace := [] |}.

(** ** The monad *)

Inductive result (A : Type) :=
| Normal (a : A)
| Raised (ex : exn)
| OutOfFuel.
Arguments Normal {A} a.
Arguments Raised {A} ex.
Arguments OutOfFuel {A}.

Definition M (A : Type) : Type := state -> result A * state.

Definition ret {A} (a : A) : M A := fun s => (Normal a, s).

Definition bind {A B} (c : M A) (k : A -> M B) : M B :=
  fun s =>
    match c s with
    | (Normal a, s') => k a s'
    | (Raised ex, s') => (Raised ex, s')
    | (OutOfFuel, s') => (OutOfFuel, s')
    end.

Definition raise {A} (ex : exn) : M A := fun s => (Raised ex, s).

Definition out_of_fuel {A} : M A := fun s => (OutOfFuel, s).

(** A pure Python operation that returns or raises. *)
Definition lift {A} (r : exn + A) : M A :=
  match r with inl ex => raise ex | inr a => ret a end.

(** [try: c except Exception as ex: handler(ex)] *)
Definition try_catch {A} (c : M A) (handler : exn -> M A) : M A :=
  fun s =>
    match c s with
    | (Raised ex, s') => handler ex s'
    | other => other
    end.

(** [try: c finally: f], for an [f] that does not raise. *)
Definition finally {A} (c : M A) (f : M unit) : M A :=
  fun s => let (r, s') := c s in (r, snd (f s')).

Declare Scope conn_scope.
Delimit Scope conn_scope with conn.
Notation "x <- c ;; k" := (bind c (fun x => k))
  (at level 100, c at next level, right associativity) : conn_scope.
Notation "c ;; k" := (bind c (fun _ => k))
  (at level 100, right associativity) : conn_scope.
Local Open Scope conn_scope.

(** Pure binds, for the Python operations that only return or raise. *)
Definition ebind {A B} (r : exn + A) (k : A -> exn + B) : exn + B :=
  match r with inl ex => inl ex | inr a => k a end.

Fixpoint emap {A B} (f : A -> exn + B) (l : list A) : exn + list B :=
  match l with
  | [] => inr []
  | x :: rest => ebind (f x) (fun y => ebind (emap f rest) (fun ys => inr (y :: ys)))
  end.

Definition set_trace (s : state) (t : list event) : state :=
  {| context := context s; n_running := n_running s; n_clock := n_clock s;
     n_client := n_client s; n_push := n_push s; trace := t |}.

Definition emit (e : event) : M unit :=
  fun s => (Normal tt, set_trace s (trace s ++ [e])).

Section Connector.

Variable configuration : LaceworkConfiguration.
Variable w : world.

(** Library functions the connector calls: [orjson.dumps(v).decode("utf-8")],
    [datetime.strptime(v, "%Y-%m-%dT%H:%M:%S.%fZ").timestamp()], and
    Python's [a > b] on operands that are not both strings. *)
Variable dumps : pyval -> exn + string.
Variable strptime_timestamp : pyval -> exn + Q.
Variable gt_other : pyval -> pyval -> exn + bool.

(** *** Collaborators *)

(** [self.running] *)
Definition running : M bool :=
  fun s =>
    (Normal (w_running w (n_running s)),
     {| context := context s; n_running := S (n_running s); n_clock := n_clock s;
        n_client := n_client s; n_push := n_push s; trace := trace s |}).

(** [time.time()] *)
Definition time_time : M Q :=
  fun s =>
    (Normal (w_clock w (n_clock s)),
     {| context := context s; n_running := n_running s; n_clock := S (n_clock s);
        n_client := n_client s; n_push := n_push s; trace := trace s |}).

(** [time.sleep(seconds)] *)
Definition time_sleep (seconds : Z) : M unit := emit (EvSleep seconds).

(** [self.client.list_alerts(parameters=parameters)] *)
Definition list_alerts (parameters : list (string * pyval)) : M response :=
  fun s =>
    let s' := {| context := context s; n_running := n_running s; n_clock := n_clock s;
                 n_client := S (n_client s); n_push := n_push s;
                 trace := trace s ++ [EvListAlerts parameters] |} in
    match w_client w (n_client s) with
    | ClientRaises ex => (Raised ex, s')
    | ClientResponse r => (Normal r, s')
    end.

(** [self.push_events_to_intakes(events=events)] *)
Definition push_events_to_intakes (events : list string) : M unit :=
  fun s =>
    let s' := {| context := context s; n_running := n_running s; n_clock := n_clock s;
                 n_client := n_client s; n_push := S (n_push s);
                 trace := trace s ++ [EvPush events] |} in
    match w_push w (n_push s) with
    | Some ex => (Raised ex, s')
    | None => (Normal tt, s')
    end.

Definition log (level : string) (m : log_message) : M unit := emit (EvLog level m).

Definition log_exception (ex : exn) (m : log_message) : M unit :=
  emit (EvLogException ex m).

Definition metric (op : metric_op) : M unit :=
  emit (EvMetric (intake_key configuration) op).

(** *** The cursor (lines 39-47) *)

Definition stored_cursor (ctx : gmap string pyval) : pyval :=
  default PyNone (ctx !! "cursor").

(** [self.cursor] *)
Definition cursor : M pyval :=
  fun s => (Normal (stored_cursor (context s)), s).

(** [self.cursor = c] *)
Definition cursor_setter (c : pyval) : M unit :=
  fun s =>
    (Normal tt,
     {| context := <["cursor" := c]> (context s); n_running := n_running s;
        n_clock := n_clock s; n_client := n_client s; n_push := n_push s;
        trace := trace s ++ [EvCursorSaved c] |}).

(** *** [pagination_limit] (lines 49-51) *)

Definition pagination_limit : Z := Z.max (chunk_size configuration) 1000.

(** *** [get_next_events] (lines 89-117) *)

Definition get_next_events (cursor : pyval) : M pyval :=
  parameters <-
    (if truthy cursor
     then ret [("limit", PyInt pagination_limit); ("cursor", cursor)]
     else now <- time_time ;;
          ret [("limit", PyInt pagination_limit);
               ("startTime", PyInt (py_int now - 300))]) ;;
  response <- list_alerts parameters ;;
  if negb (ok response)
  then log "error" (MsgRequestFailed (status_code response) (reason response)) ;;
       ret PyNone
  else lift (json response).

(** *** [_get_most_recent_timestamp_from_items] (lines 119-126) *)

(** [a > b] *)
Definition py_gt (a b : pyval) : exn + bool :=
  match a, b with
  | PyStr x, PyStr y => inr (String.ltb y x)
  | _, _ => gt_other a b
  end.

(** [max(xs, key=key)]: the running maximum is replaced only by an element
    whose key is strictly greater, so the first maximal element wins. *)
Fixpoint py_max_from (key : pyval -> exn + pyval) (best kbest : pyval)
    (xs : list pyval) : exn + pyval :=
  match xs with
  | [] => inr best
  | x :: rest =>
      ebind (key x) (fun kx =>
      ebind (py_gt kx kbest) (fun greater =>
      if greater then py_max_from key x kx rest
      else py_max_from key best kbest rest))
  end.

Definition py_max_key (key : pyval -> exn + pyval) (xs : list pyval) : exn + pyval :=
  match xs with
  | [] => inl ValueError
  | x :: rest => ebind (key x) (fun kx => py_max_from key x kx rest)
  end.

(** [max(f(x) for x in xs)]: the generator computes [f(x)] when [max] asks
    for the next element. *)
Fixpoint py_max_gen_from (f : pyval -> exn + pyval) (best : pyval)
    (xs : list pyval) : exn + pyval :=
  match xs with
  | [] => inr best
  | x :: rest =>
      ebind (f x) (fun v =>
      ebind (py_gt v best) (fun greater =>
      py_max_gen_from f (if greater then v else best) rest))
  end.

Definition py_max_gen (f : pyval -> exn + pyval) (xs : list pyval) : exn + pyval :=
  match xs with
  | [] => inl ValueError
  | x :: rest => ebind (f x) (fun v => py_max_gen_from f v rest)
  end.

Definition _extract_timestamp (item : pyval) : exn + Q :=
  ebind (py_subscript item "startTime") strptime_timestamp.

Definition _get_most_recent_timestamp_from_items (items : pyval) : exn + Q :=
  ebind (py_iter items) (fun xs =>
  ebind (py_max_key (fun item => py_subscript item "startTime") xs) (fun latest_message =>
  _extract_timestamp latest_message)).

(** *** [forward_next_batches] (lines 128-171) *)

(** [batch.get("content", {}).get("paging", {}).get("urls", {}).get("nextPage")] *)
Definition next_page (batch : pyval) : exn + pyval :=
  ebind (py_get batch "content" (PyDict [])) (fun content =>
  ebind (py_get content "paging" (PyDict [])) (fun paging =>
  ebind (py_get paging "urls" (PyDict [])) (fun urls =>
  py_get urls "nextPage" PyNone))).

(** Lines 145-146: the flag becomes the tuple [(True,)], and the cursor the
    greatest [startTime] of the [data] attribute of a second fetch. *)
Definition advance_cursor (cursor : pyval) : M (pyval * pyval) :=
  again <- get_next_events cursor ;;
  data <- lift (py_getattr_data again) ;;
  items <- lift (py_iter data) ;;
  latest <- lift (py_max_gen (fun item => py_get item "startTime" PyNone) items) ;;
  ret (PyTuple [PyBool true], latest).

(** Lines 149-153: the lag and the incoming-events counter. *)
Definition observe_items (items : pyval) : M unit :=
  n <- lift (py_len items) ;;
  if (0 <? n)%nat
  then most_recent_timestamp_seen <- lift (_get_most_recent_timestamp_from_items items) ;;
       now <- time_time ;;
       metric (EVENTS_LAG_set (py_int (now - most_recent_timestamp_seen))) ;;
       metric (INCOMING_EVENTS_inc n)
  else ret tt.

(** Lines 155-156 *)
Definition serialize_items (items : pyval) : exn + list string :=
  ebind (py_iter items) (emap dumps).

(** Lines 159-161 and 167-169 *)
Definition send_batch (messages : list string) : M unit :=
  log "info" (MsgSendingBatch (List.length messages)) ;;
  metric (OUTCOMING_EVENTS_inc (List.length messages)) ;;
  push_events_to_intakes messages.

(** Lines 158-162 *)
Definition flush_if_full (messages : list string) : M (list string) :=
  if Z.of_nat (List.length messages) >? pagination_limit
  then send_batch messages ;; ret []
  else ret messages.

(** How one pass through the body of the [while] ends: at the [break] of
    line 142, or at its last statement with the new values of the locals. *)
Inductive pass :=
| Break
| Next (has_more_messages cursor : pyval) (messages : list string).

(** Lines 141-162: what the body does with the page it fetched. *)
Definition handle_page (batch cursor : pyval) (messages : list string) : M pass :=
  if is_None batch then ret Break
  else
    marker <- lift (next_page batch) ;;
    flag_cursor <-
      (if negb (is_None marker) then advance_cursor cursor
       else ret (PyBool false, cursor)) ;;
    items <- lift (py_get batch "data" (PyList [])) ;;
    observe_items items ;;
    serialized <- lift (serialize_items items) ;;
    messages <- flush_if_full (messages ++ serialized) ;;
    ret (Next (fst flag_cursor) (snd flag_cursor) messages).

(** Lines 138-162 *)
Definition loop_body (cursor : pyval) (messages : list string) : M pass :=
  batch <- get_next_events cursor ;;
  handle_page batch cursor messages.

(** Lines 137-162: [while has_more_messages and self.running]. The flag is
    read only when [has_more_messages] is truthy. *)
Fixpoint drain_loop (fuel : nat) (has_more_messages cursor : pyval)
    (messages : list string) : M (pyval * list string) :=
  if truthy has_more_messages then
    keep <- running ;;
    if keep then
      match fuel with
      | O => out_of_fuel
      | S fuel' =>
          p <- loop_body cursor messages ;;
          match p with
          | Break => ret (cursor, messages)
          | Next has_more cursor' messages' => drain_loop fuel' has_more cursor' messages'
          end
      end
    else ret (cursor, messages)
  else ret (cursor, messages).

(** Lines 164-171 *)
Definition finish (cursor : pyval) (messages : list string) : M unit :=
  cursor_setter cursor ;;
  match messages with
  | [] => log "info" MsgNoMessages
  | _ => send_batch messages
  end.

(** The loop from a given value of its locals, then lines 164-171. *)
Definition drain_from (fuel : nat) (has_more_messages cursor : pyval)
    (messages : list string) : M unit :=
  out <- drain_loop fuel has_more_messages cursor messages ;;
  finish (fst out) (snd out).

Definition forward_next_batches (fuel : nat) : M unit :=
  c <- cursor ;;
  drain_from fuel (PyBool true) c [].

(** *** [run] (lines 62-87) *)

Definition is_http_error (ex : exn) : bool :=
  match ex with
  | HTTPError | BaseHTTPError => true
  | _ => false
  end.

(** Lines 69-75 *)
Definition guarded_drain (fuel : nat) : M unit :=
  try_catch (forward_next_batches fuel)
    (fun ex =>
       if is_http_error ex
       then log_exception ex MsgFailedNextBatch
       else log_exception ex MsgUnknownException ;; raise ex).

(** Lines 77-85 *)
Definition pace (start : Q) : M unit :=
  now <- time_time ;;
  let duration := py_int (now - start) in
  metric (FORWARD_EVENTS_DURATION_observe duration) ;;
  let delta_sleep := frequency configuration - duration in
  if delta_sleep >? 0 then time_sleep delta_sleep else ret tt.

(** One pass through the body of [while self.running] (lines 67-85). *)
Definition run_cycle (fuel : nat) : M unit :=
  start <- time_time ;;
  guarded_drain fuel ;;
  pace start.

(** Lines 66-85; [cycles] bounds the passes of the scheduler and [fuel]
    the passes of each drain. *)
Fixpoint run_loop (cycles fuel : nat) : M unit :=
  keep <- running ;;
  if keep then
    match cycles with
    | O => out_of_fuel
    | S cycles' => run_cycle fuel ;; run_loop cycles' fuel
    end
  else ret tt.

Definition run (cycles fuel : nat) : M unit :=
  log "info" MsgStarted ;;
  finally (run_loop cycles fuel) (log "info" MsgStopped).

End Connector.

(** ** Observations on traces *)

Definition is_push (e : event) : option (list string) :=
  match e with EvPush evs => Some evs | _ => None end.

Definition is_sleep (e : event) : option Z :=
  match e with EvSleep z => Some z | _ => None end.

Definition is_saved (e : event) : option pyval :=
  match e with EvCursorSaved c => Some c | _ => None end.

Fixpoint pick {A} (f : event -> option A) (evs : list event) : list A :=
  match evs with
  | [] => []
  | e :: rest => match f e with Some a => a :: pick f rest | None => pick f rest end
  end.

(** The batches handed to the Forwarder, the sleeps and the cursors saved. *)
Definition pushes : list event -> list (list string) := pick is_push.
Definition sleeps : list event -> list Z := pick is_sleep.
Definition saves : list event -> list pyval := pick is_saved.

(** The events added between two states. *)
Definition events_since (s s' : state) : list event :=
  skipn (List.length (trace s)) (trace s').

Definition not_saved (e : event) : Prop := is_saved e = None.
Definition not_sleep (e : event) : Prop := is_sleep e = None.
Definition not_push (e : event) : Prop := is_push e = None.

(** The events of the loop of a drain, and those of a whole drain. *)
Definition loop_event (e : event) : Prop :=
  match e with
  | EvListAlerts _ | EvLog _ _ | EvMetric _ _ | EvPush _ => True
  | _ => False
  end.

Definition drain_event (e : event) : Prop :=
  match e with
  | EvSleep _ | EvLogException _ _ => False
  | _ => True
  end.

(** [s'] extends the trace of [s] by events that satisfy [P]. *)
Definition emits (P : event -> Prop) (s s' : state) : Prop :=
  exists evs, trace s' = trace s ++ evs /\ Forall P evs.

(** As [emits], and the persisted context is untouched. *)
Definition frame (P : event -> Prop) (s s' : state) : Prop :=
  context s' = context s /\ emits P s s'.

(** A computation moves every state along [R], and its value satisfies [Q]
    when it returns. *)
Definition spec {A} (c : M A) (R : state -> state -> Prop) (Q : A -> Prop) : Prop :=
  forall s, R s (snd (c s)) /\
            match fst (c s) with Normal a => Q a | _ => True end.

(** The next call of [list_alerts] from [s] is answered by a successful
    response whose body is [batch]. *)
Definition fetches (w : world) (s : state) (batch : pyval) : Prop :=
  exists r, w_client w (n_client s) = ClientResponse r /\ ok r = true /\ json r = inr batch.

(** The call number [n] of [list_alerts] makes [get_next_events] return:
    the vendor answers with a failure status, or with a body that parses. *)
Definition fetch_returns (w : world) (n : nat) : Prop :=
  exists r, w_client w n = ClientResponse r /\ (ok r = false \/ exists v, json r = inr v).

(** The page carries the marker of a next page (line 144). *)
Definition has_next_page (batch : pyval) : Prop :=
  exists marker, next_page batch = inr marker /\ is_None marker = false.

(** The page is the last one: line 144 finds no marker. *)
Definition is_last_page (batch : pyval) : Prop :=
  next_page batch = inr PyNone.

(** The cursor a pass hands to the next test of the loop. *)
Definition keeps_cursor (c : pyval) (p : pass) : Prop :=
  match p with Break => True | Next _ c' _ => c' = c end.

(** The items can be observed by lines 149-153: they have a length and,
    unless there is none, their most recent timestamp can be read. *)
Definition observable (strptime_timestamp : pyval -> exn + Q)
    (gt_other : pyval -> pyval -> exn + bool) (items : pyval) : Prop :=
  exists n, py_len items = inr n /\
    (n = 0%nat \/
     exists t, _get_most_recent_timestamp_from_items strptime_timestamp gt_other items = inr t).

(** The Forwarder accepts every batch. *)
Definition forwarder_accepts (w : world) : Prop := forall n, w_push w n = None.

(** The events of lines 166-171. *)
Definition final_events (configuration : LaceworkConfiguration)
    (messages : list string) : list event :=
  match messages with
  | [] => [EvLog "info" MsgNoMessages]
  | _ => [EvLog "info" (MsgSendingBatch (List.length messages));
          EvMetric (intake_key configuration) (OUTCOMING_EVENTS_inc (List.length messages));
          EvPush messages]
  end.

(** The parameters of the request when there is no cursor (lines 91-100),
    for a clock that reads [now]. *)
Definition lookback_parameters (configuration : LaceworkConfiguration) (now : Q)
    : list (string * pyval) :=
  [("limit", PyInt (pagination_limit configuration));
   ("startTime", PyInt (py_int now - 300))].

(** The vendor's answer to the next request lets a drain complete: a failure
    status, or a last page whose records can be observed and serialized,
    with a Forwarder that accepts them. *)
Definition benign_answer (w : world) (dumps : pyval -> exn + string)
    (strptime_timestamp : pyval -> exn + Q) (gt_other : pyval -> pyval -> exn + bool)
    (s : state) : Prop :=
  (exists r, w_client w (n_client s) = ClientResponse r /\ ok r = false) \/
  (exists batch items serialized,
      fetches w s batch /\ is_None batch = false /\ is_last_page batch /\
      py_get batch "data" (PyList []) = inr items /\
      observable strptime_timestamp gt_other items /\
      serialize_items dumps items = inr serialized /\
      forwarder_accepts w).

(** The cursor is saved only after every batch of the trace has been handed
    to the Forwarder: no push follows a save. *)
Definition saved_after_every_push (tr : list event) : Prop :=
  forall before c after, tr = before ++ EvCursorSaved c :: after -> pushes after = [].

(** The two states hold the same cursor. *)
Definition same_cursor (s s' : state) : Prop :=
  stored_cursor (context s') = stored_cursor (context s).

(** The postcondition that asks nothing of the value. *)
Definition anything {A} : A -> Prop := fun _ => True.

(** The cursor order: no cursor is below every cursor, strings are ordered
    as Python orders them, and any value is at its own level. *)
Definition cursor_le (a b : pyval) : Prop :=
  match a, b with
  | PyNone, _ => True
  | PyStr x, PyStr y => String.leb x y = true
  | _, _ => a = b
  end.

(** The greater of two strings, and the greatest string of a list. *)
Definition smax (a b : string) : string := if String.ltb a b then b else a.

Definition greatest (keys : list string) : string := fold_left smax keys "".

(** An item whose [startTime] is the string [k]. *)
Definition has_start_time (item : pyval) (k : string) : Prop :=
  py_subscript item "startTime" = inr (PyStr k).

(** The [startTime] of an item that has one. *)
Definition start_key (item : pyval) : string :=
  match py_subscript item "startTime" with
  | inr (PyStr k) => k
  | _ => ""
  end.

(** The item is a record with a string [startTime]. *)
Definition well_timed (item : pyval) : Prop := has_start_time item (start_key item).

(** ** Further observations on traces *)

Definition is_request (e : event) : option (list (string * pyval)) :=
  match e with EvListAlerts parameters => Some parameters | _ => None end.

(** The requests sent to the vendor. *)
Definition requests : list event -> list (list (string * pyval)) := pick is_request.

(** The parameters that [get_next_events] builds for a cursor (lines
    91-100), when the clock would read [now]. *)
Definition request_parameters (configuration : LaceworkConfiguration) (now : Q)
    (c : pyval) : list (string * pyval) :=
  if truthy c
  then [("limit", PyInt (pagination_limit configuration)); ("cursor", c)]
  else lookback_parameters configuration now.

(** A request asks for at least 1000 records a page and carries either a
    cursor or a start time, never both. *)
Definition well_formed_request (configuration : LaceworkConfiguration)
    (parameters : list (string * pyval)) : Prop :=
  assoc "limit" parameters = Some (PyInt (Z.max (chunk_size configuration) 1000)) /\
  ((exists c, truthy c = true /\ assoc "cursor" parameters = Some c /\
              assoc "startTime" parameters = None) \/
   (exists t, assoc "startTime" parameters = Some (PyInt t) /\
              assoc "cursor" parameters = None)).

(** What the connector may do to its collaborators: send a well-formed
    request, forward a batch that is not empty, sleep for a positive time. *)
Definition well_formed_event (configuration : LaceworkConfiguration) (e : event) : Prop :=
  match e with
  | EvListAlerts parameters => well_formed_request configuration parameters
  | EvPush events => events <> []
  | EvSleep seconds => 0 < seconds
  | _ => True
  end.

(** The events that neither count outgoing messages nor forward any. *)
Definition silent (e : event) : Prop :=
  match e with
  | EvPush _ | EvMetric _ (OUTCOMING_EVENTS_inc _) => False
  | _ => True
  end.

(** What an event adds to the counter of outgoing events, and the number
    of messages it hands to the Forwarder. *)
Definition outcoming_of (e : event) : nat :=
  match e with EvMetric _ (OUTCOMING_EVENTS_inc n) => n | _ => 0%nat end.

Definition forwarded_of (e : event) : nat :=
  match e with EvPush events => List.length events | _ => 0%nat end.

Definition total (f : event -> nat) (evs : list event) : nat :=
  fold_right (fun e n => (f e + n)%nat) 0%nat evs.

(** Between [s] and [s'] the counter of outgoing events grew by the number
    of messages handed to the Forwarder. *)
Definition balanced (s s' : state) : Prop :=
  exists evs, trace s' = trace s ++ evs /\ total outcoming_of evs = total forwarded_of evs.

(** The next call of [list_alerts] from [s] makes [get_next_events] raise
    [ex]: the client raises it, or the body of a successful response does
    not parse. *)
Definition fetch_raises (w : world) (s : state) (ex : exn) : Prop :=
  w_client w (n_client s) = ClientRaises ex \/
  exists r, w_client w (n_client s) = ClientResponse r /\ ok r = true /\ json r = inl ex.

(** A pass that reaches its last statement hands over the flag [False] and
    the cursor [c]. *)
Definition hands_over (c : pyval) (p : pass) : Prop :=
  match p with Break => True | Next has_more c' _ => has_more = PyBool false /\ c' = c end.

(** The flag [self.running] has been read as often in [s'] as in [s]. *)
Definition same_flag_reads (s s' : state) : Prop := n_running s' = n_running s.

(** A computation that returns or raises, but never runs out of fuel. *)
Definition settles {A} (c : M A) : Prop := forall s, fst (c s) <> OutOfFuel.

(** The order of strings, with its decision procedure. *)
Module StringOrder := OrderedTypeFacts String_as_OT.

(** ** Sample collaborators for the concrete runs *)

Module Sample.

(** A serializer standing in for orjson on the items below: it renders
    an item by its [alertId]. *)
Definition dumps (v : pyval) : exn + string :=
  match v with
  | PyDict kvs =>
      match assoc "alertId" kvs with
      | Some (PyStr a) => inr (String.append "alert " a)
      | _ => inr "alert"
      end
  | _ => inl TypeError
  end.

Definition t1 : string := "2024-01-01T00:00:00.000000Z".
Definition t2 : string := "2024-01-02T00:00:00.000000Z".

(** The POSIX timestamps of [t1] and [t2], read as UTC. *)
Definition strptime_timestamp (v : pyval) : exn + Q :=
  match v with
  | PyStr s =>
      if String.eqb s t1 then inr (inject_Z 1704067200)
      else if String.eqb s t2 then inr (inject_Z 1704153600)
      else inl ValueError
  | _ => inl TypeError
  end.

Definition gt_other (a b : pyval) : exn + bool := inl TypeError.

Definition item (id start : string) : pyval :=
  PyDict [("alertId", PyStr id); ("startTime", PyStr start)].

(** A page of items, with or without the marker of a next page. *)
Definition page (marker : option string) (items : list pyval) : pyval :=
  match marker with
  | Some url =>
      PyDict [("content", PyDict [("paging", PyDict [("urls", PyDict [("nextPage", PyStr url)])])]);
              ("data", PyList items)]
  | None => PyDict [("data", PyList items)]
  end.

Definition answer (body : pyval) : client_result :=
  ClientResponse {| ok := true; status_code := 200; reason := "OK"; json := inr body |}.

Definition failure : client_result :=
  ClientResponse {| ok := false; status_code := 500; reason := "Internal Server Error";
                    json := inl ValueError |}.

(** A world that answers the calls of [list_alerts] from a list (then
    fails), keeps the connector running, accepts every batch and reads
    the clock at 1704153700, 1704153701, ... *)
Definition world_of (answers : list client_result) : world :=
  {| w_running := fun _ => true;
     w_clock := fun n => inject_Z (1704153700 + Z.of_nat n);
     w_client := fun n => nth n answers failure;
     w_push := fun _ => None |}.

(** The same, with a clock that reads 1704153700 at first and [d] seconds
    more from then on. *)
Definition paced_world (answers : list client_result) (d : Z) : world :=
  {| w_running := fun _ => true;
     w_clock := fun n => match n with
                         | O => inject_Z 1704153700
                         | S _ => inject_Z (1704153700 + d)
                         end;
     w_client := fun n => nth n answers failure;
     w_push := fun _ => None |}.

(** A world whose client raises [ex] at every call. *)
Definition raising_world (ex : exn) : world :=
  {| w_running := fun _ => true;
     w_clock := fun n => inject_Z (1704153700 + Z.of_nat n);
     w_client := fun _ => ClientRaises ex;
     w_push := fun _ => None |}.

(** A world in which the connector has been told to stop. *)
Definition stopped_world : world :=
  {| w_running := fun _ => false;
     w_clock := fun n => inject_Z (1704153700 + Z.of_nat n);
     w_client := fun _ => failure;
     w_push := fun _ => None |}.

Definition configuration (chunk : Z) : LaceworkConfiguration :=
  {| frequency := 60; exclude_types := None; chunk_size := chunk; intake_key := "intake" |}.

Definition forward (chunk : Z) (w : world) (fuel : nat) : M unit :=
  forward_next_batches (configuration chunk) w dumps strptime_timestamp gt_other fuel.

Definition pass_over (chunk : Z) (w : world) (cursor : pyval)
    (messages : list string) : M pass :=
  loop_body (configuration chunk) w dumps strptime_timestamp gt_other cursor messages.

Definition cycle (chunk : Z) (w : world) (fuel : nat) : M unit :=
  run_cycle (configuration chunk) w dumps strptime_timestamp gt_other fuel.

Definition schedule (chunk : Z) (w : world) (cycles fuel : nat) : M unit :=
  run_loop (configuration chunk) w dumps strptime_timestamp gt_other cycles fuel.

Definition start : state := initial_state ∅.

(** A state whose context holds the cursor [c]. *)
Definition start_at (c : string) : state := initial_state {[ "cursor" := PyStr c ]}.

(** Pages of the runs below. *)
Definition two_records : pyval := page None [item "a" t2; item "b" t1].
Definition first_of_three : pyval := page (Some "https://vendor/alerts?page=2") [item "a" t1].
Definition many_records : pyval := page None (repeat (item "a" t1) 1001).

(** Worlds of the runs below: one last page; a first page of three, a
    second fetch that fails, and a page that is never asked for. *)
Definition one_page : world := world_of [answer two_records].
Definition failing_second_fetch : world :=
  world_of [answer first_of_three; failure; answer two_records].

(** Pages of the further runs: no record at all, and a record that has no
    [startTime]. *)
Definition no_records : pyval := page None [].
Definition untimed : pyval := page None [PyDict [("alertId", PyStr "a")]; item "b" t1].

(** A world whose Forwarder raises [ex] at every call. *)
Definition refusing_world (answers : list client_result) (ex : exn) : world :=
  {| w_running := fun _ => true;
     w_clock := fun n => inject_Z (1704153700 + Z.of_nat n);
     w_client := fun n => nth n answers failure;
     w_push := fun _ => Some ex |}.

Definition whole_run (chunk : Z) (w : world) (cycles fuel : nat) : M unit :=
  run (configuration chunk) w dumps strptime_timestamp gt_other cycles fuel.

(** As [paced_world], with a number of seconds that need not be whole. *)
Definition fractional_world (answers : list client_result) (d : Q) : world :=
  {| w_running := fun _ => true;
     w_clock := fun n => match n with
                         | O => inject_Z 1704153700
                         | S _ => (inject_Z 1704153700 + d)%Q
                         end;
     w_client := fun n => nth n answers failure;
     w_push := fun _ => None |}.

(** A world in which the connector is told to stop once the flag has been
    read twice: by the scheduler, and by the first test of the drain. *)
Definition stopping_world (answers : list client_result) : world :=
  {| w_running := fun n => (n <? 2)%nat;
     w_clock := fun n => inject_Z (1704153700 + Z.of_nat n);
     w_client := fun n => nth n answers failure;
     w_push := fun _ => None |}.

(** A first page that announces a next page, and a vendor that would
    answer the next request with a last page. *)
Definition two_pages : list client_result := [answer first_of_three; answer two_records].


End Sample.


(** ** Laws of the monad *)

Section Laws.

Context {A B : Type}.
Implicit Types (c : M A) (k : A -> M B).

Lemma bind_normal c k s a s1 : c s = (Normal a, s1) -> bind c k s = k a s1.
Proof. intros H. unfold bind. now rewrite H. Qed.

Lemma bind_raised c k s ex s1 :
  c s = (Raised ex, s1) -> bind c k s = (Raised ex, s1).
Proof. intros H. unfold bind. now rewrite H. Qed.

Lemma bind_ret a k s : bind (ret a) k s = k a s.
Proof. reflexivity. Qed.

Lemma bind_lift (r : exn + A) a k s : r = inr a -> bind (lift r) k s = k a s.
Proof. intros ->. reflexivity. Qed.

Lemma bind_lift_raised (r : exn + A) ex k s :
  r = inl ex -> bind (lift r) k s = (Raised ex, s).
Proof. intros ->. reflexivity. Qed.

Lemma bind_assoc {C} c k (k' : B -> M C) s :
  bind (bind c k) k' s = bind c (fun a => bind (k a) k') s.
Proof. unfold bind. destruct (c s) as [[a|ex|] s1]; reflexivity. Qed.

Lemma bind_inv_normal c k s b s' :
  bind c k s = (Normal b, s') ->
  exists a s1, c s = (Normal a, s1) /\ k a s1 = (Normal b, s').
Proof.
  unfold bind. destruct (c s) as [[a|ex|] s1]; intros H; try discriminate.
  now exists a, s1.
Qed.

End Laws.

(** ** Rules for [spec] *)

Section Rules.

Variable R : state -> state -> Prop.
Hypothesis R_refl : forall s, R s s.
Hypothesis R_trans : forall s1 s2 s3, R s1 s2 -> R s2 s3 -> R s1 s3.

Lemma spec_ret {A} (a : A) (Q : A -> Prop) : Q a -> spec (ret a) R Q.
Proof. intros H s. simpl. auto. Qed.

Lemma spec_raise {A} ex (Q : A -> Prop) : spec (raise ex) R Q.
Proof. intros s. simpl. auto. Qed.

Lemma spec_out_of_fuel {A} (Q : A -> Prop) : spec out_of_fuel R Q.
Proof. intros s. simpl. auto. Qed.

Lemma spec_lift {A} (r : exn + A) (Q : A -> Prop) :
  (forall a, r = inr a -> Q a) -> spec (lift r) R Q.
Proof. intros H. destruct r; simpl; [apply spec_raise | apply spec_ret; auto]. Qed.

Lemma spec_bind {A B} (c : M A) (k : A -> M B) (Q : A -> Prop) (Q' : B -> Prop) :
  spec c R Q -> (forall a, Q a -> spec (k a) R Q') -> spec (bind c k) R Q'.
Proof.
  intros Hc Hk s. specialize (Hc s). unfold bind.
  destruct (c s) as [[a|ex|] s1]; simpl in *; destruct Hc as [HR HQ]; auto.
  destruct (Hk a HQ s1) as [HR' HQ']. split; [eapply R_trans; eauto | exact HQ'].
Qed.

Lemma spec_weaken {A} (c : M A) (Q Q' : A -> Prop) :
  spec c R Q -> (forall a, Q a -> Q' a) -> spec c R Q'.
Proof.
  intros Hc HQ s. destruct (Hc s) as [HR H]. split; [exact HR |].
  destruct (fst (c s)); auto.
Qed.

Lemma spec_try_catch {A} (c : M A) (h : exn -> M A) (Q : A -> Prop) :
  spec c R Q -> (forall ex, spec (h ex) R Q) -> spec (try_catch c h) R Q.
Proof.
  intros Hc Hh s. specialize (Hc s). unfold try_catch.
  destruct (c s) as [[a|ex|] s1]; simpl in *; destruct Hc as [HR HQ]; auto.
  destruct (Hh ex s1) as [HR' HQ']. split; [eapply R_trans; eauto | exact HQ'].
Qed.

End Rules.

Lemma spec_relax {A} (c : M A) (R R' : state -> state -> Prop) (Q : A -> Prop) :
  spec c R Q -> (forall s s', R s s' -> R' s s') -> spec c R' Q.
Proof. intros Hc HR s. destruct (Hc s). split; auto. Qed.

(** [emits] and [frame] are preorders, monotone in the class of events. *)

Lemma emits_refl P s : emits P s s.
Proof. exists []. split; [now rewrite app_nil_r | constructor]. Qed.

Lemma emits_trans P s1 s2 s3 : emits P s1 s2 -> emits P s2 s3 -> emits P s1 s3.
Proof.
  intros (e1 & H1 & F1) (e2 & H2 & F2). exists (e1 ++ e2). split.
  - rewrite H2, H1. now rewrite app_assoc.
  - apply Forall_app. now split.
Qed.

Lemma emits_mono (P P' : event -> Prop) s s' :
  (forall e, P e -> P' e) -> emits P s s' -> emits P' s s'.
Proof.
  intros HP (evs & H & F). exists evs. split; [exact H |].
  eapply Forall_impl; eauto.
Qed.

Lemma frame_refl P s : frame P s s.
Proof. split; [reflexivity | apply emits_refl]. Qed.

Lemma frame_trans P s1 s2 s3 : frame P s1 s2 -> frame P s2 s3 -> frame P s1 s3.
Proof.
  intros [C1 E1] [C2 E2]. split; [congruence | eapply emits_trans; eauto].
Qed.

Lemma frame_intro P s s' evs :
  context s' = context s -> trace s' = trace s ++ evs -> Forall P evs -> frame P s s'.
Proof. intros Hc Ht F. split; [exact Hc | now exists evs]. Qed.


Lemma pick_app {A} (f : event -> option A) l1 l2 :
  pick f (l1 ++ l2) = pick f l1 ++ pick f l2.
Proof.
  induction l1 as [|e l1 IH]; simpl; [reflexivity |].
  destruct (f e); simpl; now rewrite IH.
Qed.

Lemma pick_none {A} (f : event -> option A) l :
  Forall (fun e => f e = None) l -> pick f l = [].
Proof.
  induction 1 as [|e l He _ IH]; simpl; [reflexivity |]. now rewrite He.
Qed.

(** ** What each part of the connector may touch *)

Section Footprint.

Variable w : world.
Variable P : event -> Prop.

Lemma emit_frame e : P e -> spec (emit e) (frame P) anything.
Proof.
  intros He s. simpl. split; [| exact I]. split; [reflexivity |].
  exists [e]. split; [reflexivity | now constructor].
Qed.

Lemma running_frame : spec (running w) (frame P) anything.
Proof.
  intros s. simpl. split; [| exact I].
  apply frame_intro with (evs := []); simpl; auto using app_nil_r.
Qed.

Lemma time_time_frame : spec (time_time w) (frame P) anything.
Proof.
  intros s. simpl. split; [| exact I].
  apply frame_intro with (evs := []); simpl; auto using app_nil_r.
Qed.

Lemma list_alerts_frame parameters :
  P (EvListAlerts parameters) -> spec (list_alerts w parameters) (frame P) anything.
Proof.
  intros He s. unfold list_alerts.
  assert (F : forall s', context s' = context s ->
              trace s' = trace s ++ [EvListAlerts parameters] -> frame P s s').
  { intros s' Hc Ht. split; [exact Hc |]. exists [EvListAlerts parameters].
    split; [exact Ht | now constructor]. }
  destruct (w_client w (n_client s)); simpl; split; try exact I; now apply F.
Qed.

Lemma push_frame events :
  P (EvPush events) -> spec (push_events_to_intakes w events) (frame P) anything.
Proof.
  intros He s. unfold push_events_to_intakes.
  assert (F : forall s', context s' = context s ->
              trace s' = trace s ++ [EvPush events] -> frame P s s').
  { intros s' Hc Ht. split; [exact Hc |]. exists [EvPush events].
    split; [exact Ht | now constructor]. }
  destruct (w_push w (n_push s)); simpl; split; try exact I; now apply F.
Qed.

End Footprint.

Lemma frame_bind P {A B} (c : M A) (k : A -> M B) (Q : A -> Prop) (Q' : B -> Prop) :
  spec c (frame P) Q -> (forall a, Q a -> spec (k a) (frame P) Q') ->
  spec (bind c k) (frame P) Q'.
Proof. apply spec_bind. apply frame_trans. Qed.

Lemma frame_ret P {A} (a : A) (Q : A -> Prop) : Q a -> spec (ret a) (frame P) Q.
Proof. apply spec_ret. apply frame_refl. Qed.

Lemma frame_lift P {A} (r : exn + A) (Q : A -> Prop) :
  (forall a, r = inr a -> Q a) -> spec (lift r) (frame P) Q.
Proof. apply spec_lift. apply frame_refl. Qed.

Lemma frame_lift_any P {A} (r : exn + A) : spec (lift r) (frame P) anything.
Proof. apply frame_lift. intros; exact I. Qed.

Ltac frame_step :=
  lazymatch goal with
  | |- spec (ret _) _ _ => apply frame_ret
  | |- spec (raise _) _ _ => apply spec_raise; apply frame_refl
  | |- spec out_of_fuel _ _ => apply spec_out_of_fuel; apply frame_refl
  | |- spec (lift _) _ _ => apply frame_lift_any
  | |- spec (emit _) _ _ => apply emit_frame
  | |- spec (running _) _ _ => apply running_frame
  | |- spec (time_time _) _ _ => apply time_time_frame
  | |- spec (list_alerts _ _) _ _ => apply list_alerts_frame
  | |- spec (push_events_to_intakes _ _) _ _ => apply push_frame
  | |- spec (bind _ _) _ _ => eapply frame_bind; [| intros ? ?]
  end.

Section Loop.

Variable configuration : LaceworkConfiguration.
Variable w : world.
Variable dumps : pyval -> exn + string.
Variable strptime_timestamp : pyval -> exn + Q.
Variable gt_other : pyval -> pyval -> exn + bool.

Local Abbreviation get_next_events := (get_next_events configuration w).
Local Abbreviation advance_cursor := (advance_cursor configuration w gt_other).
Local Abbreviation observe_items := (observe_items configuration w strptime_timestamp gt_other).
Local Abbreviation send_batch := (send_batch configuration w).
Local Abbreviation flush_if_full := (flush_if_full configuration w).
Local Abbreviation handle_page :=
  (handle_page configuration w dumps strptime_timestamp gt_other).
Local Abbreviation loop_body :=
  (loop_body configuration w dumps strptime_timestamp gt_other).
Local Abbreviation drain_loop :=
  (drain_loop configuration w dumps strptime_timestamp gt_other).

Section AnyClass.

Variable P : event -> Prop.

Lemma get_next_events_frame c :
  (forall parameters, P (EvListAlerts parameters)) ->
  (forall level m, P (EvLog level m)) ->
  spec (get_next_events c) (frame P) anything.
Proof.
  intros Hreq Hlog. unfold get_next_events.
  eapply frame_bind with (Q := anything).
  - destruct (truthy c); repeat frame_step; exact I.
  - intros parameters _. eapply frame_bind with (Q := anything).
    + frame_step. apply Hreq.
    + intros r _. destruct (negb (ok r)); unfold log; repeat frame_step;
        first [apply Hlog | exact I].
Qed.

Lemma observe_items_frame items :
  (forall label op, P (EvMetric label op)) ->
  spec (observe_items items) (frame P) anything.
Proof.
  intros Hm. unfold observe_items, metric.
  eapply frame_bind; [apply frame_lift_any |]. intros n _.
  destruct (0 <? n)%nat; repeat frame_step; first [apply Hm | exact I].
Qed.

End AnyClass.

Lemma get_next_events_loop_event c :
  spec (get_next_events c) (frame loop_event) anything.
Proof. apply get_next_events_frame; intros; exact I. Qed.

Lemma py_getattr_data_raises v : py_getattr_data v = inl (AttributeError "data").
Proof. destruct v; reflexivity. Qed.

(** Line 146 never produces a cursor: the attribute access raises. *)
Lemma advance_cursor_never c :
  spec (advance_cursor c) (frame loop_event) (fun _ => False).
Proof.
  unfold advance_cursor.
  eapply frame_bind; [apply get_next_events_loop_event |]. intros again _.
  eapply frame_bind with (Q := fun _ => False).
  - apply frame_lift. intros a Ha. rewrite py_getattr_data_raises in Ha. discriminate.
  - intros a [].
Qed.

Lemma send_batch_frame messages : spec (send_batch messages) (frame loop_event) anything.
Proof. unfold send_batch, log, metric. repeat frame_step; exact I. Qed.

Lemma flush_if_full_frame messages :
  spec (flush_if_full messages) (frame loop_event) anything.
Proof.
  unfold flush_if_full.
  destruct (_ >? _).
  - eapply frame_bind; [apply send_batch_frame |]. intros. frame_step. exact I.
  - frame_step. exact I.
Qed.

Lemma handle_page_frame batch c messages :
  spec (handle_page batch c messages) (frame loop_event) (keeps_cursor c).
Proof.
  unfold handle_page.
  destruct (is_None batch); [now frame_step |].
  eapply frame_bind; [apply frame_lift_any |]. intros marker _.
  eapply frame_bind with (Q := fun fc => snd fc = c).
  - destruct (negb (is_None marker)).
    + eapply spec_weaken; [apply advance_cursor_never | intros ? []].
    + now frame_step.
  - intros fc Hfc.
    eapply frame_bind; [apply frame_lift_any |]. intros items _.
    eapply frame_bind; [apply observe_items_frame; intros; exact I |]. intros _ _.
    eapply frame_bind; [apply frame_lift_any |]. intros serialized _.
    eapply frame_bind; [apply flush_if_full_frame |]. intros messages' _.
    now frame_step.
Qed.

(** A pass through the body leaves the context as it is and, when it
    reaches its last statement, the cursor too. *)
Lemma loop_body_frame c messages :
  spec (loop_body c messages) (frame loop_event) (keeps_cursor c).
Proof.
  unfold loop_body.
  eapply frame_bind; [apply get_next_events_loop_event |]. intros batch _.
  apply handle_page_frame.
Qed.

(** What follows a pass: line 142 leaves the loop, the last statement of
    the body goes back to its test. *)
Lemma after_pass_frame fuel c messages p :
  (forall has_more c' messages',
      spec (drain_loop fuel has_more c' messages') (frame loop_event)
        (fun out => fst out = c')) ->
  keeps_cursor c p ->
  spec (match p with
        | Break => ret (c, messages)
        | Next has_more c' messages' => drain_loop fuel has_more c' messages'
        end) (frame loop_event) (fun out => fst out = c).
Proof.
  intros IH Hp. destruct p as [|hm c' ms]; [now frame_step |].
  simpl in Hp. subst c'. apply IH.
Qed.

(** The loop of a drain returns the cursor it started from. *)
Lemma drain_loop_frame fuel : forall has_more c messages,
  spec (drain_loop fuel has_more c messages) (frame loop_event)
    (fun out => fst out = c).
Proof.
  induction fuel as [|fuel IH]; intros has_more c messages; simpl;
    (destruct (truthy has_more); [| now frame_step]);
    (eapply frame_bind; [apply running_frame |]); intros keep _;
    (destruct keep; [| now frame_step]).
  - frame_step.
  - eapply frame_bind; [apply loop_body_frame |]. intros p Hp.
    now apply after_pass_frame.
Qed.

End Loop.

(** ** The paths of a drain *)

Section Paths.

Variable configuration : LaceworkConfiguration.
Variable w : world.
Variable dumps : pyval -> exn + string.
Variable strptime_timestamp : pyval -> exn + Q.
Variable gt_other : pyval -> pyval -> exn + bool.

Local Abbreviation get_next_events := (get_next_events configuration w).
Local Abbreviation advance_cursor := (advance_cursor configuration w gt_other).
Local Abbreviation observe_items := (observe_items configuration w strptime_timestamp gt_other).
Local Abbreviation send_batch := (send_batch configuration w).
Local Abbreviation flush_if_full := (flush_if_full configuration w).
Local Abbreviation handle_page :=
  (handle_page configuration w dumps strptime_timestamp gt_other).
Local Abbreviation loop_body :=
  (loop_body configuration w dumps strptime_timestamp gt_other).
Local Abbreviation drain_loop :=
  (drain_loop configuration w dumps strptime_timestamp gt_other).
Local Abbreviation finish := (finish configuration w).
Local Abbreviation drain_from :=
  (drain_from configuration w dumps strptime_timestamp gt_other).
Local Abbreviation forward_next_batches :=
  (forward_next_batches configuration w dumps strptime_timestamp gt_other).

(** *** Fetching *)

Lemma get_next_events_fetches c s batch :
  fetches w s batch ->
  exists s1, get_next_events c s = (Normal batch, s1)
    /\ n_client s1 = S (n_client s) /\ n_running s1 = n_running s
    /\ context s1 = context s
    /\ exists parameters, trace s1 = trace s ++ [EvListAlerts parameters].
Proof.
  intros (r & Hr & Hok & Hj). unfold get_next_events, bind, list_alerts.
  destruct (truthy c); simpl; rewrite Hr, Hok; simpl; rewrite Hj; simpl;
    eexists; (split; [reflexivity |]); simpl; repeat split; eauto.
Qed.

Lemma get_next_events_failure c s r :
  w_client w (n_client s) = ClientResponse r -> ok r = false ->
  exists s1, get_next_events c s = (Normal PyNone, s1)
    /\ n_running s1 = n_running s /\ context s1 = context s
    /\ exists evs, trace s1 = trace s ++ evs /\ pushes evs = [] /\ saves evs = [].
Proof.
  intros Hr Hok. unfold get_next_events, bind, list_alerts.
  destruct (truthy c); simpl; rewrite Hr, Hok; simpl;
    eexists; (split; [reflexivity |]); simpl; (split; [reflexivity |]);
    (split; [reflexivity |]); rewrite <- app_assoc; eexists;
    (split; [reflexivity |]); split; reflexivity.
Qed.

Lemma get_next_events_returns c s :
  fetch_returns w (n_client s) ->
  exists v s1, get_next_events c s = (Normal v, s1)
    /\ context s1 = context s
    /\ exists evs, trace s1 = trace s ++ evs /\ pushes evs = [] /\ saves evs = [].
Proof.
  intros (r & Hr & [Hok | [v Hv]]).
  - destruct (get_next_events_failure c s r Hr Hok) as (s1 & E & _ & Hc & Ht).
    now exists PyNone, s1.
  - destruct (ok r) eqn:Hok.
    + destruct (get_next_events_fetches c s v) as (s1 & E & _ & _ & Hc & ps & Ht).
      { now exists r. }
      exists v, s1. split; [exact E |]. split; [exact Hc |].
      exists [EvListAlerts ps]. now repeat split.
    + destruct (get_next_events_failure c s r Hr Hok) as (s1 & E & _ & Hc & Ht).
      now exists PyNone, s1.
Qed.

(** Without a cursor the request asks for the last 300 seconds. *)
Lemma get_next_events_lookback c s :
  truthy c = false ->
  exists evs, trace (snd (get_next_events c s)) =
    trace s ++ EvListAlerts (lookback_parameters configuration (w_clock w (n_clock s))) :: evs.
Proof.
  intros Hc. unfold get_next_events, bind, list_alerts. rewrite Hc. simpl.
  destruct (w_client w (n_client s)) as [ex | r]; simpl.
  - now exists [].
  - destruct (ok r); simpl.
    + destruct (json r); simpl; now exists [].
    + rewrite <- app_assoc. simpl. eexists. reflexivity.
Qed.

(** *** A page with the marker of a next page *)

Lemma advance_cursor_not_normal c s : forall out, fst (advance_cursor c s) <> Normal out.
Proof.
  intros out H. destruct (advance_cursor_never configuration w gt_other c s) as [_ HQ].
  now rewrite H in HQ.
Qed.

Lemma advance_cursor_raises c s :
  fetch_returns w (n_client s) ->
  exists s1, advance_cursor c s = (Raised (AttributeError "data"), s1)
    /\ context s1 = context s
    /\ exists evs, trace s1 = trace s ++ evs /\ pushes evs = [] /\ saves evs = [].
Proof.
  intros H. destruct (get_next_events_returns c s H) as (v & s1 & Hg & Hc & Ht).
  exists s1. split; [| now split].
  unfold advance_cursor. rewrite (bind_normal _ _ _ _ _ Hg).
  unfold bind. now rewrite py_getattr_data_raises.
Qed.

Lemma handle_page_marker batch c messages s :
  is_None batch = false -> has_next_page batch ->
  (forall p, fst (handle_page batch c messages s) <> Normal p) /\
  (fetch_returns w (n_client s) ->
   exists s', handle_page batch c messages s = (Raised (AttributeError "data"), s')
     /\ context s' = context s
     /\ exists evs, trace s' = trace s ++ evs /\ pushes evs = [] /\ saves evs = []).
Proof.
  intros Hb (marker & Hm & Hn).
  unfold handle_page. rewrite Hb.
  rewrite (bind_lift _ _ _ _ Hm), Hn. simpl negb. cbv iota. split.
  - intros p. unfold bind.
    pose proof (advance_cursor_not_normal c s) as Hnot.
    destruct (advance_cursor c s) as [[out|ex|] s2]; simpl in *;
      [now contradiction (Hnot out) | discriminate | discriminate].
  - intros Hret.
    destruct (advance_cursor_raises c s Hret) as (s2 & Ha & Hc2 & Hev).
    exists s2. now rewrite (bind_raised _ _ _ _ _ Ha).
Qed.

(** A pass over a page that carries the marker stops at line 146. *)
Lemma loop_body_marker c messages s batch :
  fetches w s batch -> is_None batch = false -> has_next_page batch ->
  (forall p, fst (loop_body c messages s) <> Normal p) /\
  (fetch_returns w (S (n_client s)) ->
   exists s', loop_body c messages s = (Raised (AttributeError "data"), s')
     /\ context s' = context s
     /\ exists evs, trace s' = trace s ++ evs /\ pushes evs = [] /\ saves evs = []).
Proof.
  intros Hf Hb Hm.
  destruct (get_next_events_fetches c s batch Hf)
    as (s1 & Hg & Hcl & _ & Hctx & parameters & Htr).
  unfold loop_body. rewrite (bind_normal _ _ _ _ _ Hg).
  destruct (handle_page_marker batch c messages s1 Hb Hm) as [Hnot Hraise].
  split; [exact Hnot |]. intros Hret. rewrite <- Hcl in Hret.
  destruct (Hraise Hret) as (s2 & E & Hc2 & evs & Ht2 & Hp & Hs).
  exists s2. split; [exact E |]. split; [congruence |].
  exists (EvListAlerts parameters :: evs).
  rewrite Ht2, Htr, <- app_assoc. simpl. repeat split; assumption.
Qed.

(** *** The loop seen from its first test *)

Lemma cursor_returns s : cursor s = (Normal (stored_cursor (context s)), s).
Proof. reflexivity. Qed.

Lemma drain_loop_enter fuel has_more c messages s :
  truthy has_more = true -> w_running w (n_running s) = true ->
  drain_loop (S fuel) has_more c messages s =
    bind (loop_body c messages)
      (fun p => match p with
                | Break => ret (c, messages)
                | Next h c' m => drain_loop fuel h c' m
                end) (snd (running w s)).
Proof. intros Hh Hr. simpl. rewrite Hh. unfold bind at 1. simpl. now rewrite Hr. Qed.

Lemma drain_loop_stopped fuel has_more c messages s :
  truthy has_more = true -> w_running w (n_running s) = false ->
  drain_loop fuel has_more c messages s = (Normal (c, messages), snd (running w s)).
Proof.
  intros Hh Hr. destruct fuel; simpl; rewrite Hh; unfold bind; simpl; now rewrite Hr.
Qed.

Lemma drain_loop_exhausted fuel has_more c messages s :
  truthy has_more = false ->
  drain_loop fuel has_more c messages s = (Normal (c, messages), s).
Proof. intros Hh. destruct fuel; simpl; now rewrite Hh. Qed.

(** *** Lines 164-171 *)

Lemma stored_cursor_insert c (ctx : gmap string pyval) :
  stored_cursor (<["cursor" := c]> ctx) = c.
Proof. unfold stored_cursor. now rewrite lookup_insert_eq. Qed.

Lemma finish_run c messages s :
  exists r s', finish c messages s = (r, s')
    /\ context s' = <["cursor" := c]> (context s)
    /\ trace s' = trace s ++ EvCursorSaved c :: final_events configuration messages
    /\ n_running s' = n_running s
    /\ (forwarder_accepts w -> r = Normal tt).
Proof.
  unfold finish, cursor_setter, bind. destruct messages as [|m ms].
  - simpl. do 2 eexists. split; [reflexivity |]. simpl.
    rewrite <- app_assoc. now repeat split.
  - unfold send_batch, log, metric, emit, bind, push_events_to_intakes.
    simpl. destruct (w_push w (n_push s)) as [ex|] eqn:Hp;
      do 2 eexists; (split; [reflexivity |]); simpl;
      rewrite <- !app_assoc; simpl; repeat split; try reflexivity.
    intros Hacc. rewrite (Hacc (n_push s)) in Hp. discriminate.
Qed.

(** A drain is its loop, which keeps the context and the cursor, and then
    lines 164-171 with the cursor that was loaded; or its loop did not
    return. *)
Lemma forward_next_batches_cases fuel s :
  (exists messages s1,
      frame loop_event s s1 /\
      forward_next_batches fuel s = finish (stored_cursor (context s)) messages s1)
  \/ (frame loop_event s (snd (forward_next_batches fuel s)) /\
      fst (forward_next_batches fuel s) <> Normal tt).
Proof.
  unfold forward_next_batches, drain_from.
  rewrite (bind_normal _ _ _ _ _ (cursor_returns s)).
  set (c := stored_cursor (context s)).
  destruct (drain_loop_frame configuration w dumps strptime_timestamp gt_other
              fuel (PyBool true) c [] s) as [HR HQ].
  unfold bind.
  destruct (drain_loop fuel (PyBool true) c [] s) as [[[c' ms]|ex|] s1];
    simpl in *.
  - left. subst c'. now exists ms, s1.
  - right. split; [exact HR | discriminate].
  - right. split; [exact HR | discriminate].
Qed.

(** A drain never changes the cursor it would load. *)
Lemma forward_next_batches_same_cursor fuel s :
  stored_cursor (context (snd (forward_next_batches fuel s))) =
  stored_cursor (context s).
Proof.
  destruct (forward_next_batches_cases fuel s) as [(ms & s1 & [Hc _] & E) | [[Hc _] _]].
  - rewrite E. destruct (finish_run (stored_cursor (context s)) ms s1)
      as (r & s' & E' & Hctx & _). rewrite E'. simpl.
    rewrite Hctx. apply stored_cursor_insert.
  - now rewrite Hc.
Qed.

(** *** A last page *)

Lemma observe_items_returns items s :
  observable strptime_timestamp gt_other items ->
  exists s', observe_items items s = (Normal tt, s')
    /\ context s' = context s /\ n_running s' = n_running s
    /\ exists evs, trace s' = trace s ++ evs /\ pushes evs = [] /\ saves evs = [].
Proof.
  intros (n & Hlen & Hts). unfold observe_items.
  rewrite (bind_lift _ _ _ _ Hlen).
  destruct (0 <? n)%nat eqn:Hn.
  - destruct Hts as [-> | [t Ht]]; [discriminate |].
    rewrite (bind_lift _ _ _ _ Ht).
    unfold bind, time_time, metric, emit. simpl.
    eexists. split; [reflexivity |]. simpl. rewrite <- app_assoc.
    repeat split. eexists. split; [reflexivity |]. split; reflexivity.
  - exists s. split; [reflexivity |]. repeat split.
    exists []. rewrite app_nil_r. now repeat split.
Qed.

Lemma flush_if_full_run messages s :
  forwarder_accepts w ->
  let full := Z.of_nat (List.length messages) >? pagination_limit configuration in
  exists s', flush_if_full messages s = (Normal (if full then [] else messages), s')
    /\ context s' = context s /\ n_running s' = n_running s
    /\ exists evs, trace s' = trace s ++ evs
         /\ pushes evs = (if full then [messages] else []) /\ saves evs = [].
Proof.
  intros Hacc full. unfold flush_if_full. fold full. destruct full.
  - unfold send_batch, log, metric, emit, bind, push_events_to_intakes.
    simpl. rewrite (Hacc (n_push s)). eexists. split; [reflexivity |]. simpl.
    rewrite <- !app_assoc. repeat split. eexists. split; [reflexivity |].
    split; reflexivity.
  - exists s. split; [reflexivity |]. repeat split.
    exists []. rewrite app_nil_r. now repeat split.
Qed.

(** A pass over a last page: the records are observed and serialized, the
    buffer is flushed if it went over the limit, and the loop is told to
    stop with the cursor it had. *)
Lemma handle_page_last batch c messages s items serialized :
  is_None batch = false -> is_last_page batch ->
  py_get batch "data" (PyList []) = inr items ->
  observable strptime_timestamp gt_other items ->
  serialize_items dumps items = inr serialized ->
  forwarder_accepts w ->
  let buffer := messages ++ serialized in
  let full := Z.of_nat (List.length buffer) >? pagination_limit configuration in
  exists s', handle_page batch c messages s =
               (Normal (Next (PyBool false) c (if full then [] else buffer)), s')
    /\ context s' = context s /\ n_running s' = n_running s
    /\ exists evs, trace s' = trace s ++ evs
         /\ pushes evs = (if full then [buffer] else []) /\ saves evs = [].
Proof.
  intros Hb Hlast Hdata Hobs Hser Hacc buffer full.
  unfold handle_page. rewrite Hb.
  rewrite (bind_lift _ _ _ _ Hlast). simpl negb. cbv iota.
  rewrite bind_ret. rewrite (bind_lift _ _ _ _ Hdata).
  destruct (observe_items_returns items s Hobs)
    as (s1 & E1 & Hc1 & Hr1 & evs1 & Ht1 & Hp1 & Hs1).
  rewrite (bind_normal _ _ _ _ _ E1). rewrite (bind_lift _ _ _ _ Hser).
  destruct (flush_if_full_run buffer s1 Hacc)
    as (s2 & E2 & Hc2 & Hr2 & evs2 & Ht2 & Hp2 & Hs2).
  fold buffer. rewrite (bind_normal _ _ _ _ _ E2). fold full.
  exists s2. split; [reflexivity |]. split; [congruence |]. split; [congruence |].
  exists (evs1 ++ evs2). rewrite Ht2, Ht1, <- app_assoc. split; [reflexivity |].
  unfold pushes, saves in *. rewrite !pick_app, Hp1, Hs1, Hp2, Hs2. now split.
Qed.

End Paths.

(** ** The greatest [startTime] of a page *)

Section MostRecent.

Variable strptime_timestamp : pyval -> exn + Q.
Variable gt_other : pyval -> pyval -> exn + bool.

Lemma ltb_lt a b : String.ltb a b = true <-> String_as_OT.lt a b.
Proof.
  unfold String.ltb. rewrite <- String_as_OT.cmp_lt. unfold String_as_OT.cmp.
  destruct (String.compare a b); split; congruence.
Qed.

Lemma ltb_nlt a b : String.ltb a b = false <-> ~ String_as_OT.lt a b.
Proof. rewrite <- ltb_lt. destruct (String.ltb a b); split; congruence. Qed.

Lemma leb_nlt a b : String.leb a b = true <-> ~ String_as_OT.lt b a.
Proof.
  rewrite <- ltb_lt. unfold String.leb, String.ltb.
  rewrite (String.compare_antisym a b).
  destruct (String.compare b a); simpl; split; congruence.
Qed.

Ltac by_cases :=
  repeat match goal with
    | |- context [String.ltb ?p ?q] =>
        lazymatch p with context [String.ltb] => fail | _ => idtac end;
        lazymatch q with context [String.ltb] => fail | _ => idtac end;
        let E := fresh "E" in
        destruct (String.ltb p q) eqn:E;
        [apply ltb_lt in E | apply ltb_nlt in E]
    end.

Lemma smax_swap a x y : smax (smax a x) y = smax (smax a y) x.
Proof. unfold smax. by_cases; try reflexivity; StringOrder.order. Qed.

Lemma smax_empty k : smax "" k = k.
Proof. unfold smax. destruct k; reflexivity. Qed.

Lemma fold_smax_permutation l l' :
  Permutation l l' -> forall a, fold_left smax l a = fold_left smax l' a.
Proof.
  induction 1 as [| x l l' _ IH | x y l | l l' l'' _ IH1 _ IH2]; intros a; simpl.
  - reflexivity.
  - apply IH.
  - now rewrite smax_swap.
  - now rewrite IH1.
Qed.

Lemma greatest_permutation l l' : Permutation l l' -> greatest l = greatest l'.
Proof. intros H. now apply fold_smax_permutation. Qed.

Lemma fold_smax_bounds l : forall a,
  String.leb a (fold_left smax l a) = true /\
  Forall (fun k => String.leb k (fold_left smax l a) = true) l /\
  (fold_left smax l a = a \/ In (fold_left smax l a) l).
Proof.
  induction l as [|x l IH]; intros a; simpl.
  - split; [| split; [constructor | now left]].
    apply leb_nlt. StringOrder.order.
  - destruct (IH (smax a x)) as (Ha & Hl & Hin).
    assert (Hax : String.leb a (smax a x) = true /\ String.leb x (smax a x) = true).
    { unfold smax. by_cases; split; apply leb_nlt; StringOrder.order. }
    destruct Hax as [H1 H2].
    assert (T : forall p q r, String.leb p q = true -> String.leb q r = true ->
                              String.leb p r = true).
    { intros p q r Hp Hq. apply leb_nlt. apply leb_nlt in Hp, Hq. StringOrder.order. }
    split; [eapply T; eauto |]. split.
    + constructor; [eapply T; eauto | exact Hl].
    + destruct Hin as [E | Hin]; [| now right; right].
      rewrite E. unfold smax. by_cases; [right; now left | now left].
Qed.

(** The greatest key bounds every key and is one of them. *)
Lemma greatest_is_max k ks :
  Forall (fun k' => String.leb k' (greatest (k :: ks)) = true) (k :: ks) /\
  In (greatest (k :: ks)) (k :: ks).
Proof.
  unfold greatest. simpl. rewrite smax_empty.
  destruct (fold_smax_bounds ks k) as (Ha & Hl & Hin). split.
  - now constructor.
  - destruct Hin as [E | Hin]; [left; now rewrite E | now right].
Qed.

Lemma py_max_from_keys xs : forall best kbest,
  Forall well_timed xs -> has_start_time best kbest ->
  exists b, py_max_from gt_other (fun item => py_subscript item "startTime")
              best (PyStr kbest) xs = inr b
    /\ has_start_time b (fold_left smax (map start_key xs) kbest).
Proof.
  induction xs as [|x xs IH]; intros best kbest Hxs Hbest; simpl.
  - now exists best.
  - inversion Hxs as [|? ? Hx Hrest]; subst. unfold well_timed, has_start_time in Hx.
    rewrite Hx. simpl. unfold smax.
    destruct (String.ltb kbest (start_key x)); now apply IH.
Qed.

(** The timestamp that [_get_most_recent_timestamp_from_items] returns is
    the one of the greatest [startTime]. *)
Lemma most_recent_is_greatest x xs :
  Forall well_timed (x :: xs) ->
  _get_most_recent_timestamp_from_items strptime_timestamp gt_other (PyList (x :: xs)) =
  strptime_timestamp (PyStr (greatest (map start_key (x :: xs)))).
Proof.
  intros Hall. inversion Hall as [|? ? Hx Hrest]; subst.
  unfold _get_most_recent_timestamp_from_items, py_max_key. simpl.
  unfold well_timed, has_start_time in Hx. rewrite Hx. simpl.
  destruct (py_max_from_keys xs x (start_key x) Hrest Hx) as (b & E & Hb).
  rewrite E. simpl. unfold _extract_timestamp. unfold has_start_time in Hb.
  rewrite Hb. simpl. unfold greatest. simpl. now rewrite smax_empty.
Qed.

End MostRecent.

(** ** Whole drains and the scheduler *)

Section Scheduler.

Variable configuration : LaceworkConfiguration.
Variable w : world.
Variable dumps : pyval -> exn + string.
Variable strptime_timestamp : pyval -> exn + Q.
Variable gt_other : pyval -> pyval -> exn + bool.

Local Abbreviation get_next_events := (get_next_events configuration w).
Local Abbreviation handle_page :=
  (handle_page configuration w dumps strptime_timestamp gt_other).
Local Abbreviation loop_body :=
  (loop_body configuration w dumps strptime_timestamp gt_other).
Local Abbreviation drain_loop :=
  (drain_loop configuration w dumps strptime_timestamp gt_other).
Local Abbreviation finish := (finish configuration w).
Local Abbreviation drain_from :=
  (drain_from configuration w dumps strptime_timestamp gt_other).
Local Abbreviation forward_next_batches :=
  (forward_next_batches configuration w dumps strptime_timestamp gt_other).
Local Abbreviation guarded_drain :=
  (guarded_drain configuration w dumps strptime_timestamp gt_other).
Local Abbreviation run_cycle :=
  (run_cycle configuration w dumps strptime_timestamp gt_other).
Local Abbreviation run_loop :=
  (run_loop configuration w dumps strptime_timestamp gt_other).

Lemma events_since_app s s' evs :
  trace s' = trace s ++ evs -> events_since s s' = evs.
Proof.
  intros H. unfold events_since. rewrite H.
  now rewrite skipn_app, Nat.sub_diag, skipn_all.
Qed.

Lemma final_events_drain messages :
  Forall drain_event (final_events configuration messages).
Proof. destruct messages; repeat constructor. Qed.

Lemma loop_event_drain e : loop_event e -> drain_event e.
Proof. destruct e; simpl; auto. Qed.

Lemma drain_event_not_sleep e : drain_event e -> not_sleep e.
Proof. destruct e; simpl; intros H; try reflexivity; contradiction. Qed.

Lemma loop_event_not_saved e : loop_event e -> not_saved e.
Proof. destruct e; simpl; intros H; try reflexivity; contradiction. Qed.

(** A drain only fetches, logs, counts, forwards and saves the cursor. *)
Lemma forward_next_batches_emits fuel s :
  emits drain_event s (snd (forward_next_batches fuel s)).
Proof.
  destruct (forward_next_batches_cases configuration w dumps strptime_timestamp
              gt_other fuel s) as [(ms & s1 & [_ He] & E) | [[_ He] _]].
  - rewrite E.
    destruct (finish_run configuration w (stored_cursor (context s)) ms s1)
      as (r & s' & E' & _ & Ht & _).
    rewrite E'. simpl. eapply emits_trans.
    + eapply emits_mono; [apply loop_event_drain | exact He].
    + eexists. split; [exact Ht |]. constructor; [exact I | apply final_events_drain].
  - eapply emits_mono; [apply loop_event_drain | exact He].
Qed.

Lemma guarded_drain_raised fuel s ex s2 :
  forward_next_batches fuel s = (Raised ex, s2) ->
  guarded_drain fuel s =
    if is_http_error ex
    then (Normal tt, snd (log_exception ex MsgFailedNextBatch s2))
    else (Raised ex, snd (log_exception ex MsgUnknownException s2)).
Proof.
  intros H. unfold guarded_drain, try_catch. rewrite H.
  destruct (is_http_error ex); reflexivity.
Qed.

Lemma guarded_drain_emits fuel s :
  emits not_sleep s (snd (guarded_drain fuel s)).
Proof.
  pose proof (forward_next_batches_emits fuel s) as He.
  apply (emits_mono _ _ _ _ drain_event_not_sleep) in He.
  destruct (forward_next_batches fuel s) as [[[]|ex|] s2] eqn:E.
  - unfold guarded_drain, try_catch. now rewrite E.
  - rewrite (guarded_drain_raised _ _ _ _ E). simpl in He.
    eapply emits_trans; [exact He |].
    destruct (is_http_error ex); simpl; eexists; (split; [reflexivity |]);
      now repeat constructor.
  - unfold guarded_drain, try_catch. now rewrite E.
Qed.

(** Lines 77-85 after a cycle that started at [start]. *)
Lemma pace_run start s :
  let duration := py_int (w_clock w (n_clock s) - start) in
  let delta_sleep := frequency configuration - duration in
  exists s', pace configuration w start s = (Normal tt, s')
    /\ n_clock s' = S (n_clock s) /\ context s' = context s
    /\ trace s' = trace s ++
         EvMetric (intake_key configuration) (FORWARD_EVENTS_DURATION_observe duration)
         :: (if delta_sleep >? 0 then [EvSleep delta_sleep] else []).
Proof.
  intros duration delta_sleep.
  unfold pace, bind, time_time, metric, time_sleep, emit. simpl.
  fold duration. fold delta_sleep. destruct (delta_sleep >? 0); simpl;
    eexists; (split; [reflexivity |]); simpl; repeat split.
  now rewrite <- app_assoc.
Qed.

Lemma run_cycle_unfold fuel s :
  run_cycle fuel s =
    bind (guarded_drain fuel)
      (fun _ => pace configuration w (w_clock w (n_clock s))) (snd (time_time w s)).
Proof. reflexivity. Qed.

Lemma run_loop_step cycles fuel s :
  w_running w (n_running s) = true ->
  run_loop (S cycles) fuel s =
    bind (run_cycle fuel) (fun _ => run_loop cycles fuel) (snd (running w s)).
Proof. intros H. simpl. unfold bind at 1. simpl. now rewrite H. Qed.

End Scheduler.

(** ** Properties of the connector *)

Section Properties.

Variable configuration : LaceworkConfiguration.
Variable w : world.
Variable dumps : pyval -> exn + string.
Variable strptime_timestamp : pyval -> exn + Q.
Variable gt_other : pyval -> pyval -> exn + bool.

Local Abbreviation get_next_events := (get_next_events configuration w).
Local Abbreviation handle_page :=
  (handle_page configuration w dumps strptime_timestamp gt_other).
Local Abbreviation loop_body :=
  (loop_body configuration w dumps strptime_timestamp gt_other).
Local Abbreviation drain_loop :=
  (drain_loop configuration w dumps strptime_timestamp gt_other).
Local Abbreviation finish := (finish configuration w).
Local Abbreviation drain_from :=
  (drain_from configuration w dumps strptime_timestamp gt_other).
Local Abbreviation forward_next_batches :=
  (forward_next_batches configuration w dumps strptime_timestamp gt_other).
Local Abbreviation guarded_drain :=
  (guarded_drain configuration w dumps strptime_timestamp gt_other).
Local Abbreviation run_cycle :=
  (run_cycle configuration w dumps strptime_timestamp gt_other).
Local Abbreviation run_loop :=
  (run_loop configuration w dumps strptime_timestamp gt_other).
Local Abbreviation run := (run configuration w dumps strptime_timestamp gt_other).

(** A drain that finds the connector running starts with a pass. *)
Lemma forward_next_batches_enter fuel s :
  w_running w (n_running s) = true ->
  forward_next_batches (S fuel) s =
    bind (bind (loop_body (stored_cursor (context s)) [])
            (fun p => match p with
                      | Break => ret (stored_cursor (context s), [])
                      | Next h c' m => drain_loop fuel h c' m
                      end))
      (fun out => finish (fst out) (snd out)) (snd (running w s)).
Proof.
  intros Hrun. unfold forward_next_batches, drain_from.
  rewrite (bind_normal _ _ _ _ _ (cursor_returns s)).
  unfold bind at 1.
  rewrite (drain_loop_enter configuration w dumps strptime_timestamp gt_other
             fuel (PyBool true) _ [] s eq_refl Hrun).
  reflexivity.
Qed.

(** A drain whose first page carries the marker stops at line 146. *)
Lemma forward_next_batches_marker fuel s batch :
  w_running w (n_running s) = true ->
  fetches w s batch -> is_None batch = false -> has_next_page batch ->
  fst (forward_next_batches (S fuel) s) <> Normal tt /\
  (fetch_returns w (S (n_client s)) ->
   exists s', forward_next_batches (S fuel) s = (Raised (AttributeError "data"), s')
     /\ context s' = context s
     /\ exists evs, trace s' = trace s ++ evs /\ pushes evs = [] /\ saves evs = []).
Proof.
  intros Hrun Hf Hb Hm. rewrite (forward_next_batches_enter fuel s Hrun).
  set (c := stored_cursor (context s)).
  destruct (loop_body_marker configuration w dumps strptime_timestamp gt_other
              c [] (snd (running w s)) batch Hf Hb Hm) as [Hnot Hraise].
  split.
  - unfold bind.
    destruct (loop_body c [] (snd (running w s))) as [[p|ex|] s2] eqn:E; simpl in *;
      [now contradiction (Hnot p) | discriminate | discriminate].
  - intros Hret. destruct (Hraise Hret) as (s' & E & Hc & evs & Ht & Hp & Hs).
    exists s'. rewrite (bind_raised _ _ _ _ _ (bind_raised _ _ _ _ _ E)).
    now repeat split; eauto.
Qed.


(** *** The persisted cursor *)

Lemma cursor_le_refl c : cursor_le c c.
Proof.
  destruct c; simpl; auto.
  destruct (String.leb_total s s); assumption.
Qed.

Lemma same_cursor_refl s : same_cursor s s.
Proof. reflexivity. Qed.

Lemma same_cursor_trans s1 s2 s3 :
  same_cursor s1 s2 -> same_cursor s2 s3 -> same_cursor s1 s3.
Proof. unfold same_cursor. congruence. Qed.

Lemma frame_same_cursor P s s' : frame P s s' -> same_cursor s s'.
Proof. intros [Hc _]. unfold same_cursor. now rewrite Hc. Qed.

Lemma run_cycle_same_cursor fuel : spec (run_cycle fuel) same_cursor anything.
Proof.
  unfold run_cycle.
  eapply spec_bind; [apply same_cursor_trans | |].
  - eapply spec_relax; [apply (time_time_frame w drain_event) | apply frame_same_cursor].
  - intros start _. eapply spec_bind; [apply same_cursor_trans | |].
    + unfold guarded_drain.
      apply spec_try_catch with (Q := anything); [apply same_cursor_trans | |].
      * intros s. split; [| now destruct (fst _)].
        apply forward_next_batches_same_cursor.
      * intros ex. eapply spec_relax with (R := frame (fun _ => True));
          [| apply frame_same_cursor].
        unfold log_exception. destruct (is_http_error ex); repeat frame_step; exact I.
    + intros _ _. eapply spec_relax with (R := frame (fun _ => True));
        [| apply frame_same_cursor].
      unfold pace, metric, time_sleep.
      eapply frame_bind; [apply time_time_frame |]. intros now _.
      eapply frame_bind; [apply emit_frame; exact I |]. intros _ _.
      destruct (_ >? _); repeat frame_step; exact I.
Qed.

Lemma run_loop_same_cursor cycles fuel : spec (run_loop cycles fuel) same_cursor anything.
Proof.
  induction cycles as [|cycles IH]; simpl;
    (eapply spec_bind; [apply same_cursor_trans | |];
     [eapply spec_relax; [apply (running_frame w drain_event) | apply frame_same_cursor] |]);
    intros keep _; (destruct keep; [| apply spec_ret; [apply same_cursor_refl | exact I]]).
  - apply spec_out_of_fuel. apply same_cursor_refl.
  - eapply spec_bind; [apply same_cursor_trans | apply run_cycle_same_cursor |].
    intros _ _. apply IH.
Qed.

(** C5. The cursor persisted after a cycle is greater than or equal to
    the cursor loaded before it: a drain, a cycle of the scheduler and
    any number of cycles leave in the context the very cursor they found,
    whatever the vendor sends and however the cycle ends. *)
Theorem cursor_never_regresses cycles fuel s :
  cursor_le (stored_cursor (context s))
    (stored_cursor (context (snd (forward_next_batches fuel s)))) /\
  cursor_le (stored_cursor (context s))
    (stored_cursor (context (snd (run_cycle fuel s)))) /\
  cursor_le (stored_cursor (context s))
    (stored_cursor (context (snd (run_loop cycles fuel s)))).
Proof.
  rewrite forward_next_batches_same_cursor.
  destruct (run_cycle_same_cursor fuel s) as [H1 _].
  destruct (run_loop_same_cursor cycles fuel s) as [H2 _].
  unfold same_cursor in H1, H2. rewrite H1, H2.
  repeat split; apply cursor_le_refl.
Qed.

(** *** The scheduler *)

(** C6, as the code has it. The duration [d] of a cycle is the integer
    that line 78 computes, [int(time.time() - start)]: the seconds between
    the two readings of the clock, cut to a whole number, the value the
    cycle reports to the duration metric. When the drain of a cycle
    returns, or raises an HTTP error that line 72 logs, the cycle
    completes: with frequency [f] it ends with the duration metric,
    followed by one sleep of [f - d] seconds when [d < f] and by nothing
    when [d >= f]; nothing before the metric is a sleep, so the cycle
    sleeps [max(0, f - d)] seconds in all; and from the state in which
    the cycle ends the scheduler goes straight to the test of its next
    cycle. *)
Theorem sleep_budget cycles fuel s s2 :
  w_running w (n_running s) = true ->
  guarded_drain fuel (snd (time_time w (snd (running w s)))) = (Normal tt, s2) ->
  let d := py_int (w_clock w (n_clock s2) - w_clock w (n_clock s)) in
  let f := frequency configuration in
  exists s',
    run_cycle fuel (snd (running w s)) = (Normal tt, s') /\
    (exists evs,
        events_since s s' =
          evs ++ EvMetric (intake_key configuration) (FORWARD_EVENTS_DURATION_observe d)
              :: (if f - d >? 0 then [EvSleep (f - d)] else []) /\
        sleeps evs = []) /\
    (d < f -> sleeps (events_since s s') = [f - d]) /\
    (f <= d -> sleeps (events_since s s') = []) /\
    fold_right Z.add 0 (sleeps (events_since s s')) = Z.max 0 (f - d) /\
    run_loop (S cycles) fuel s = run_loop cycles fuel s'.
Proof.
  intros Hflag Hg d f.
  destruct (pace_run configuration w (w_clock w (n_clock s)) s2)
    as (s' & Hp & _ & _ & Ht3).
  fold d in Ht3. fold f in Ht3.
  assert (Hrun : run_cycle fuel (snd (running w s)) = (Normal tt, s')).
  { rewrite run_cycle_unfold. rewrite (bind_normal _ _ _ _ _ Hg). exact Hp. }
  exists s'. split; [exact Hrun |].
  assert (Hloop : run_loop (S cycles) fuel s = run_loop cycles fuel s').
  { rewrite (run_loop_step _ _ _ _ _ _ _ _ Hflag).
    now rewrite (bind_normal _ _ _ _ _ Hrun). }
  pose proof (guarded_drain_emits configuration w dumps strptime_timestamp
                gt_other fuel (snd (time_time w (snd (running w s))))) as (evs & Ht & Hev).
  rewrite Hg in Ht. simpl in Ht.
  rewrite Ht, <- app_assoc in Ht3. apply events_since_app in Ht3.
  assert (Hs : sleeps evs = []) by (apply pick_none; exact Hev).
  split; [exists evs; split; [exact Ht3 | exact Hs] |].
  rewrite Ht3. unfold sleeps in *. rewrite pick_app, Hs. simpl.
  split; [| split; [| split; [| exact Hloop]]];
    destruct (f - d >? 0) eqn:Hpos; simpl;
    try (apply Z.gtb_lt in Hpos);
    try (rewrite Z.gtb_ltb in Hpos; apply Z.ltb_ge in Hpos);
    intros; try reflexivity; lia.
Qed.


(** *** The order of forwarding and saving *)

Lemma pushes_final_events messages :
  pushes (final_events configuration messages) =
  match messages with [] => [] | _ => [messages] end.
Proof. destruct messages; reflexivity. Qed.

(** C1, as the code has it. A drain that completes saves the cursor
    once: after every batch that its loop handed to the Forwarder, before
    the final flush of the records that remain, and with the value that
    was loaded, so that the persisted cursor is never moved past records
    that were not forwarded. *)
Theorem cursor_saved_before_final_flush fuel s s' :
  forward_next_batches fuel s = (Normal tt, s') ->
  exists before messages,
    events_since s s' =
      before ++ EvCursorSaved (stored_cursor (context s))
             :: final_events configuration messages /\
    saves before = [] /\
    pushes (final_events configuration messages) =
      match messages with [] => [] | _ => [messages] end /\
    stored_cursor (context s') = stored_cursor (context s).
Proof.
  intros Hrun.
  destruct (forward_next_batches_cases configuration w dumps strptime_timestamp
              gt_other fuel s) as [(ms & s1 & [_ (evs & Ht & Hev)] & E) | [_ Hnot]].
  - destruct (finish_run configuration w (stored_cursor (context s)) ms s1)
      as (r & s2 & E' & _ & Ht2 & _).
    rewrite E, E' in Hrun. injection Hrun as -> ->.
    exists evs, ms. split; [| split; [| split]].
    + apply events_since_app. now rewrite Ht2, Ht, <- app_assoc.
    + apply pick_none. eapply List.Forall_impl; [| exact Hev].
      intros e. apply loop_event_not_saved.
    + apply pushes_final_events.
    + pose proof (forward_next_batches_same_cursor configuration w dumps
                    strptime_timestamp gt_other fuel s) as H.
      rewrite E, E' in H. exact H.
  - now rewrite Hrun in Hnot.
Qed.

(** *** The flush inside the loop *)


(** *** A drain without a cursor *)

Lemma finish_empty c s :
  exists s', finish c [] s = (Normal tt, s')
    /\ trace s' = trace s ++ [EvCursorSaved c; EvLog "info" MsgNoMessages].
Proof.
  unfold finish, cursor_setter, log, emit, bind. simpl.
  eexists. split; [reflexivity |]. simpl. now rewrite <- app_assoc.
Qed.

(** What a drain does after its first fetch only adds events. *)
Lemma after_fetch_extends fuel batch c s :
  exists evs,
    trace (snd (bind (bind (handle_page batch c [])
                        (fun p => match p with
                                  | Break => ret (c, [])
                                  | Next h c' m => drain_loop fuel h c' m
                                  end))
                  (fun out => finish (fst out) (snd out)) s)) = trace s ++ evs.
Proof.
  assert (H : spec (bind (bind (handle_page batch c [])
                            (fun p => match p with
                                      | Break => ret (c, [])
                                      | Next h c' m => drain_loop fuel h c' m
                                      end))
                      (fun out => finish (fst out) (snd out)))
                (emits (fun _ => True)) anything).
  { eapply spec_bind with (Q := anything); [apply emits_trans | |].
    - eapply spec_relax with (R := frame loop_event).
      + eapply spec_weaken.
        * eapply frame_bind; [apply handle_page_frame |]. intros p Hp.
          apply after_pass_frame; [apply drain_loop_frame | exact Hp].
        * intros; exact I.
      + intros s1 s2 [_ He]. eapply emits_mono; [| exact He]. auto.
    - intros out _ s1.
      destruct (finish_run configuration w (fst out) (snd out) s1)
        as (r & s2 & E & _ & Ht & _).
      rewrite E. simpl. split; [| now destruct r].
      eexists. split; [exact Ht |]. apply Forall_forall. auto. }
  destruct (H s) as [(evs & Ht & _) _]. now exists evs.
Qed.

(** The first thing a drain without a cursor does is to ask for the last
    300 seconds. *)
Lemma forward_next_batches_lookback fuel s :
  truthy (stored_cursor (context s)) = false ->
  w_running w (n_running s) = true ->
  exists evs,
    events_since s (snd (forward_next_batches (S fuel) s)) =
    EvListAlerts (lookback_parameters configuration (w_clock w (n_clock s))) :: evs.
Proof.
  intros Hc Hrun. rewrite (forward_next_batches_enter fuel s Hrun).
  unfold loop_body. rewrite !bind_assoc.
  set (s0 := snd (running w s)).
  destruct (get_next_events_lookback configuration w (stored_cursor (context s))
              s0 Hc) as (evs & Ht).
  change (trace s0) with (trace s) in Ht. change (n_clock s0) with (n_clock s) in Ht.
  unfold bind at 1.
  destruct (get_next_events (stored_cursor (context s)) s0)
    as [[batch|ex|] s1]; simpl snd in Ht.
  - rewrite <- bind_assoc.
    destruct (after_fetch_extends fuel batch (stored_cursor (context s)) s1)
      as (evs' & Ht').
    exists (evs ++ evs'). apply events_since_app.
    rewrite Ht', Ht, <- app_assoc. reflexivity.
  - exists evs. now apply events_since_app.
  - exists evs. now apply events_since_app.
Qed.

(** A drain whose first request is answered with a failure status. *)
Lemma forward_next_batches_failure fuel s r :
  w_running w (n_running s) = true ->
  w_client w (n_client s) = ClientResponse r -> ok r = false ->
  exists s', forward_next_batches (S fuel) s = (Normal tt, s')
    /\ pushes (events_since s s') = [].
Proof.
  intros Hrun Hr Hok. rewrite (forward_next_batches_enter fuel s Hrun).
  destruct (get_next_events_failure configuration w (stored_cursor (context s))
              (snd (running w s)) r Hr Hok) as (s1 & E & _ & _ & evs & Ht & Hp & _).
  unfold loop_body. rewrite !bind_assoc.
  rewrite (bind_normal _ _ _ _ _ E). unfold handle_page. simpl is_None.
  cbv iota. rewrite !bind_ret. simpl fst. simpl snd.
  destruct (finish_empty (stored_cursor (context s)) s1) as (s2 & E2 & Ht2).
  exists s2. split; [exact E2 |].
  rewrite (events_since_app s s2
             (evs ++ [EvCursorSaved (stored_cursor (context s));
                      EvLog "info" MsgNoMessages])).
  - unfold pushes in *. now rewrite pick_app, Hp.
  - rewrite Ht2, Ht. simpl. now rewrite <- app_assoc.
Qed.

(** A drain whose first request is answered with a last page: every
    record of the page is forwarded, by the loop or by the final flush. *)
Lemma forward_next_batches_last_page fuel s batch items serialized :
  w_running w (n_running s) = true ->
  fetches w s batch -> is_None batch = false -> is_last_page batch ->
  py_get batch "data" (PyList []) = inr items ->
  observable strptime_timestamp gt_other items ->
  serialize_items dumps items = inr serialized ->
  forwarder_accepts w ->
  exists s', forward_next_batches (S fuel) s = (Normal tt, s')
    /\ concat (pushes (events_since s s')) = serialized.
Proof.
  intros Hrun Hf Hb Hlast Hdata Hobs Hser Hacc.
  rewrite (forward_next_batches_enter fuel s Hrun).
  set (c := stored_cursor (context s)).
  destruct (get_next_events_fetches configuration w c (snd (running w s)) batch Hf)
    as (s1 & Hg & _ & _ & _ & parameters & Ht1).
  destruct (handle_page_last configuration w dumps strptime_timestamp gt_other
              batch c [] s1 items serialized Hb Hlast Hdata Hobs Hser Hacc)
    as (s2 & E & _ & _ & evs & Ht2 & Hp & _).
  simpl app in E, Hp.
  set (full := Z.of_nat (List.length serialized) >? pagination_limit configuration) in *.
  set (rest := if full then [] else serialized) in *.
  unfold loop_body. rewrite !bind_assoc.
  rewrite (bind_normal _ _ _ _ _ Hg). rewrite (bind_normal _ _ _ _ _ E).
  rewrite (bind_normal _ _ _ _ _
             (drain_loop_exhausted configuration w dumps strptime_timestamp gt_other
                fuel (PyBool false) c rest s2 eq_refl)).
  simpl fst. simpl snd.
  destruct (finish_run configuration w c rest s2) as (r & s3 & E3 & _ & Ht3 & _ & Hn).
  rewrite (Hn Hacc) in E3. exists s3. split; [exact E3 |].
  rewrite (events_since_app s s3
             ((EvListAlerts parameters :: evs)
                ++ EvCursorSaved c :: final_events configuration rest)).
  - unfold pushes in *. rewrite pick_app. simpl. rewrite Hp.
    change (pick is_push (final_events configuration rest))
      with (pushes (final_events configuration rest)).
    rewrite pushes_final_events. unfold rest. destruct full; simpl.
    + now rewrite app_nil_r.
    + destruct serialized; simpl; [reflexivity | now rewrite app_nil_r].
  - rewrite Ht3, Ht2, Ht1. simpl. now rewrite <- !app_assoc.
Qed.

(** C8, as the code has it. A drain that starts without a persisted
    cursor sends as its first request the page limit and a start time 300
    seconds before the clock, cut to a whole number, and no cursor
    parameter; and the drain completes whenever the vendor answers that
    request with a failure status, or with a last page of records that can
    be observed and serialized and that the Forwarder accepts. *)
Theorem missing_cursor_fallback fuel s :
  stored_cursor (context s) = PyNone ->
  w_running w (n_running s) = true ->
  let parameters := lookback_parameters configuration (w_clock w (n_clock s)) in
  parameters = [("limit", PyInt (Z.max (chunk_size configuration) 1000));
                ("startTime", PyInt (py_int (w_clock w (n_clock s)) - 300))] /\
  assoc "cursor" parameters = None /\
  (exists evs, events_since s (snd (forward_next_batches (S fuel) s)) =
               EvListAlerts parameters :: evs) /\
  (benign_answer w dumps strptime_timestamp gt_other s ->
   fst (forward_next_batches (S fuel) s) = Normal tt).
Proof.
  intros Hnone Hrun parameters. split; [reflexivity |]. split; [reflexivity |].
  split.
  - apply forward_next_batches_lookback; [now rewrite Hnone | exact Hrun].
  - intros [(r & Hr & Hok) | (batch & items & serialized & Hf & Hb & Hl & Hd & Ho & Hs & Ha)].
    + destruct (forward_next_batches_failure fuel s r Hrun Hr Hok) as (s' & E & _).
      now rewrite E.
    + destruct (forward_next_batches_last_page fuel s batch items serialized
                  Hrun Hf Hb Hl Hd Ho Hs Ha) as (s' & E & _).
      now rewrite E.
Qed.

(** *** The lag of a page *)


End Properties.

(** ** Concrete runs *)

Import Sample.


(** C5 on a stored cursor: the drain saves the cursor it loaded. *)
Example cursor_kept :
  stored_cursor (context (snd (forward 1000 one_page 1 (start_at "abc")))) = PyStr "abc".
Proof. vm_compute. reflexivity. Qed.

(** C6 fails as stated: with frequency 60, a cycle that lasts 59.5
    seconds sleeps 1 second, and not the half second that is left of the
    period, since line 78 cuts the duration to 59. *)
Lemma sleep_budget_counterexample :
  let w := fractional_world [answer two_records] (119 # 2)%Q in
  let s' := snd (cycle 1000 w 1 start) in
  fst (cycle 1000 w 1 start) = Normal tt /\
  (w_clock w (Nat.pred (n_clock s')) - w_clock w (n_clock start) == 119 # 2)%Q /\
  (inject_Z (frequency (configuration 1000)) - (119 # 2) == 1 # 2)%Q /\
  sleeps (events_since start s') = [1] /\
  ~ (inject_Z 1 == 1 # 2)%Q.
Proof.
  split; [vm_compute; reflexivity |]. split; [vm_compute; reflexivity |].
  split; [vm_compute; reflexivity |]. split; [vm_compute; reflexivity |].
  intros H. vm_compute in H. discriminate H.
Qed.

(** C6, as the code has it, with frequency 60: a cycle of 16 seconds ends
    with one sleep of 44 seconds, a cycle of 80 seconds does not sleep,
    and a cycle of 59.5 seconds has the duration 59 and sleeps 1 second;
    each time the scheduler goes on to the test of its next cycle. *)
Lemma sleep_budget_witness :
  (let w := paced_world [answer two_records] 16 in
   exists s',
     cycle 1000 w 1 (snd (running w start)) = (Normal tt, s') /\
     sleeps (events_since start s') = [44] /\
     schedule 1000 w 3 1 start = schedule 1000 w 2 1 s') /\
  (let w := paced_world [answer two_records] 80 in
   exists s',
     cycle 1000 w 1 (snd (running w start)) = (Normal tt, s') /\
     sleeps (events_since start s') = [] /\
     schedule 1000 w 3 1 start = schedule 1000 w 2 1 s') /\
  (let w := fractional_world [answer two_records] (119 # 2)%Q in
   exists s' evs,
     cycle 1000 w 1 (snd (running w start)) = (Normal tt, s') /\
     events_since start s' =
       evs ++ [EvMetric "intake" (FORWARD_EVENTS_DURATION_observe 59); EvSleep 1] /\
     sleeps evs = []).
Proof.
  split; [| split]; intros w.
  - assert (H : guarded_drain (configuration 1000) w dumps strptime_timestamp gt_other 1
                  (snd (time_time w (snd (running w start)))) =
                (Normal tt,
                 snd (guarded_drain (configuration 1000) w dumps strptime_timestamp gt_other 1
                        (snd (time_time w (snd (running w start)))))))
      by (vm_compute; reflexivity).
    destruct (sleep_budget (configuration 1000) w dumps strptime_timestamp gt_other
                2 1 start _ eq_refl H) as (s' & Hrun & _ & Hlt & _ & _ & Hloop).
    exists s'. split; [exact Hrun |].
    split; [apply Hlt; vm_compute; reflexivity | exact Hloop].
  - assert (H : guarded_drain (configuration 1000) w dumps strptime_timestamp gt_other 1
                  (snd (time_time w (snd (running w start)))) =
                (Normal tt,
                 snd (guarded_drain (configuration 1000) w dumps strptime_timestamp gt_other 1
                        (snd (time_time w (snd (running w start)))))))
      by (vm_compute; reflexivity).
    destruct (sleep_budget (configuration 1000) w dumps strptime_timestamp gt_other
                2 1 start _ eq_refl H) as (s' & Hrun & _ & _ & Hge & _ & Hloop).
    exists s'. split; [exact Hrun |].
    split; [apply Hge; vm_compute; discriminate | exact Hloop].
  - assert (H : guarded_drain (configuration 1000) w dumps strptime_timestamp gt_other 1
                  (snd (time_time w (snd (running w start)))) =
                (Normal tt,
                 snd (guarded_drain (configuration 1000) w dumps strptime_timestamp gt_other 1
                        (snd (time_time w (snd (running w start)))))))
      by (vm_compute; reflexivity).
    destruct (sleep_budget (configuration 1000) w dumps strptime_timestamp gt_other
                2 1 start _ eq_refl H) as (s' & Hrun & (evs & Hev & Hs) & _).
    exists s', evs. split; [exact Hrun |]. split; [exact Hev | exact Hs].
Defined.


(** C1 fails as stated: on a last page of two records the cursor is saved
    before the two records are handed to the Forwarder. *)
Lemma cursor_saved_first_counterexample :
  trace (snd (forward 1000 one_page 1 start)) =
    [EvListAlerts [("limit", PyInt 1000); ("startTime", PyInt 1704153400)];
     EvMetric "intake" (EVENTS_LAG_set 101);
     EvMetric "intake" (INCOMING_EVENTS_inc 2);
     EvCursorSaved PyNone;
     EvLog "info" (MsgSendingBatch 2);
     EvMetric "intake" (OUTCOMING_EVENTS_inc 2);
     EvPush ["alert a"; "alert b"]] /\
  ~ saved_after_every_push (trace (snd (forward 1000 one_page 1 start))).
Proof.
  assert (E : trace (snd (forward 1000 one_page 1 start)) =
              [EvListAlerts [("limit", PyInt 1000); ("startTime", PyInt 1704153400)];
               EvMetric "intake" (EVENTS_LAG_set 101);
               EvMetric "intake" (INCOMING_EVENTS_inc 2)]
              ++ EvCursorSaved PyNone
              :: [EvLog "info" (MsgSendingBatch 2);
                  EvMetric "intake" (OUTCOMING_EVENTS_inc 2);
                  EvPush ["alert a"; "alert b"]])
    by (vm_compute; reflexivity).
  split; [exact E |].
  intros H. specialize (H _ _ _ E). discriminate H.
Qed.

(** C1, as the code has it, on that page. *)
Lemma cursor_saved_before_final_flush_witness :
  exists before messages,
    events_since start (snd (forward 1000 one_page 1 start)) =
      before ++ EvCursorSaved PyNone :: final_events (configuration 1000) messages /\
    saves before = [] /\
    pushes (final_events (configuration 1000) messages) =
      match messages with [] => [] | _ => [messages] end /\
    stored_cursor (context (snd (forward 1000 one_page 1 start))) = PyNone.
Proof.
  assert (H : forward 1000 one_page 1 start =
              (Normal tt, snd (forward 1000 one_page 1 start)))
    by (vm_compute; reflexivity).
  exact (cursor_saved_before_final_flush (configuration 1000) one_page dumps
           strptime_timestamp gt_other 1 start _ H).
Defined.



(** C8 on an empty context and a last page of two records. *)
Lemma missing_cursor_fallback_witness :
  (exists evs,
      events_since start (snd (forward 1000 one_page 1 start)) =
      EvListAlerts [("limit", PyInt 1000); ("startTime", PyInt (1704153700 - 300))] :: evs) /\
  fst (forward 1000 one_page 1 start) = Normal tt.
Proof.
  assert (Hb : benign_answer one_page dumps strptime_timestamp gt_other start).
  { right. exists two_records, (PyList [item "a" t2; item "b" t1]), ["alert a"; "alert b"].
    split; [eexists; repeat split; reflexivity |].
    split; [reflexivity |]. split; [reflexivity |]. split; [reflexivity |].
    split; [| split; [reflexivity | intros n; reflexivity]].
    exists 2%nat. split; [reflexivity |]. right.
    exists (inject_Z 1704153600). vm_compute. reflexivity. }
  destruct (missing_cursor_fallback (configuration 1000) one_page dumps
              strptime_timestamp gt_other 0 start eq_refl eq_refl)
    as (_ & _ & Hfirst & Hdone).
  split; [exact Hfirst | exact (Hdone Hb)].
Defined.

(** C8 fails as stated: without a persisted cursor the first request asks
    for the last 300 seconds, and the cycle fails all the same when the
    client raises a connection error, which line 75 raises again, and when
    the page that answers carries the marker of a next page (C3). *)
Lemma missing_cursor_counterexample :
  stored_cursor (context start) = PyNone /\
  (let w := raising_world (OtherException "ConnectionError") in
   requests (trace (snd (cycle 1000 w 1 start))) =
     [[("limit", PyInt 1000); ("startTime", PyInt (1704153701 - 300))]] /\
   fst (cycle 1000 w 1 start) = Raised (OtherException "ConnectionError")) /\
  (let w := world_of two_pages in
   fetches w start first_of_three /\
   fst (cycle 1000 w 1 start) = Raised (AttributeError "data")).
Proof.
  split; [reflexivity |]. split; [split; vm_compute; reflexivity |].
  split; [| vm_compute; reflexivity].
  eexists. repeat split; reflexivity.
Qed.



(** C4. A first page of three carries the marker of a next page; when the
    second fetch fails, the claim has the record of the first page
    forwarded, and the code stops at line 146 instead: the drain raises
    [AttributeError], nothing is forwarded, no cursor is saved, and the
    scheduler ends. *)
Theorem first_page_lost_when_second_fetch_fails :
  let drain := forward 1000 failing_second_fetch 1 start in
  let scheduler := schedule 1000 failing_second_fetch 3 1 start in
  serialize_items dumps (PyList [item "a" t1]) = inr ["alert a"] /\
  w_client failing_second_fetch 1 = failure /\
  fst drain = Raised (AttributeError "data") /\
  pushes (trace (snd drain)) = [] /\
  saves (trace (snd drain)) = [] /\
  context (snd drain) = context start /\
  fst scheduler = Raised (AttributeError "data") /\
  pushes (trace (snd scheduler)) = [].
Proof. repeat split; vm_compute; reflexivity. Qed.

(** ** The events of each step *)

Section Steps.

Variable configuration : LaceworkConfiguration.
Variable w : world.
Variable strptime_timestamp : pyval -> exn + Q.
Variable gt_other : pyval -> pyval -> exn + bool.

Local Abbreviation get_next_events := (get_next_events configuration w).
Local Abbreviation observe_items := (observe_items configuration w strptime_timestamp gt_other).
Local Abbreviation send_batch := (send_batch configuration w).

(** A call of [get_next_events] sends one request, built from the cursor,
    and logs the failure status if there is one. *)
Lemma get_next_events_trace c s :
  context (snd (get_next_events c s)) = context s /\
  exists tail,
    trace (snd (get_next_events c s)) =
      trace s ++ EvListAlerts (request_parameters configuration (w_clock w (n_clock s)) c)
              :: tail /\
    (tail = [] \/ exists status reason, tail = [EvLog "error" (MsgRequestFailed status reason)]).
Proof.
  unfold get_next_events, request_parameters, lookback_parameters, bind, list_alerts, log, emit.
  destruct (truthy c); simpl;
    (destruct (w_client w (n_client s)) as [ex | r]; simpl;
     [ split; [reflexivity |]; exists []; split; [reflexivity | now left]
     | destruct (ok r); simpl;
       [ destruct (json r); simpl; (split; [reflexivity |]); exists [];
         (split; [reflexivity | now left])
       | split; [reflexivity |]; eexists; rewrite <- app_assoc; simpl;
         split; [reflexivity | right; eauto] ] ]).
Qed.

(** Lines 149-153 set the lag and count the records, or do nothing. *)
Lemma observe_items_trace items s :
  context (snd (observe_items items s)) = context s /\
  (trace (snd (observe_items items s)) = trace s \/
   exists lag n,
     trace (snd (observe_items items s)) =
       trace s ++ [EvMetric (intake_key configuration) (EVENTS_LAG_set lag);
                   EvMetric (intake_key configuration) (INCOMING_EVENTS_inc n)]).
Proof.
  unfold observe_items, bind, lift, ret, raise, time_time, metric, emit.
  destruct (py_len items) as [ex | n]; simpl; [split; [| left]; reflexivity |].
  destruct (0 <? n)%nat; simpl; [| split; [| left]; reflexivity].
  destruct (_get_most_recent_timestamp_from_items strptime_timestamp gt_other items)
    as [ex | t]; simpl; [split; [| left]; reflexivity |].
  split; [reflexivity |]. right. do 2 eexists. now rewrite <- app_assoc.
Qed.

(** Sending a batch logs it, counts it and hands it to the Forwarder. *)
Lemma send_batch_trace messages s :
  context (snd (send_batch messages s)) = context s /\
  trace (snd (send_batch messages s)) =
    trace s ++ [EvLog "info" (MsgSendingBatch (List.length messages));
                EvMetric (intake_key configuration)
                  (OUTCOMING_EVENTS_inc (List.length messages));
                EvPush messages].
Proof.
  unfold send_batch, log, metric, emit, bind, push_events_to_intakes. simpl.
  destruct (w_push w (n_push s)); simpl; rewrite <- !app_assoc; now split.
Qed.

End Steps.

(** ** Invariants of the scheduler *)

(** Any preorder on states that the steps of the connector respect is
    respected by a drain, by a cycle and by the scheduler. *)
Section Invariant.

Variable configuration : LaceworkConfiguration.
Variable w : world.
Variable dumps : pyval -> exn + string.
Variable strptime_timestamp : pyval -> exn + Q.
Variable gt_other : pyval -> pyval -> exn + bool.

Local Abbreviation get_next_events := (get_next_events configuration w).
Local Abbreviation advance_cursor := (advance_cursor configuration w gt_other).
Local Abbreviation observe_items := (observe_items configuration w strptime_timestamp gt_other).
Local Abbreviation send_batch := (send_batch configuration w).
Local Abbreviation flush_if_full := (flush_if_full configuration w).
Local Abbreviation handle_page :=
  (handle_page configuration w dumps strptime_timestamp gt_other).
Local Abbreviation loop_body :=
  (loop_body configuration w dumps strptime_timestamp gt_other).
Local Abbreviation drain_loop :=
  (drain_loop configuration w dumps strptime_timestamp gt_other).
Local Abbreviation finish := (finish configuration w).
Local Abbreviation forward_next_batches :=
  (forward_next_batches configuration w dumps strptime_timestamp gt_other).
Local Abbreviation guarded_drain :=
  (guarded_drain configuration w dumps strptime_timestamp gt_other).
Local Abbreviation run_cycle :=
  (run_cycle configuration w dumps strptime_timestamp gt_other).
Local Abbreviation run_loop :=
  (run_loop configuration w dumps strptime_timestamp gt_other).
Local Abbreviation run := (run configuration w dumps strptime_timestamp gt_other).

Variable R : state -> state -> Prop.
Hypothesis R_refl : forall s, R s s.
Hypothesis R_trans : forall s1 s2 s3, R s1 s2 -> R s2 s3 -> R s1 s3.
Hypothesis R_running : forall s, R s (snd (running w s)).
Hypothesis R_time : forall s, R s (snd (time_time w s)).
Hypothesis R_fetch : forall c s, R s (snd (get_next_events c s)).
Hypothesis R_observe : forall items s, R s (snd (observe_items items s)).
Hypothesis R_send : forall messages s, messages <> [] -> R s (snd (send_batch messages s)).
Hypothesis R_save : forall c s, R s (snd (cursor_setter c s)).
Hypothesis R_log : forall level m s, R s (snd (log level m s)).
Hypothesis R_log_exception : forall ex m s, R s (snd (log_exception ex m s)).
Hypothesis R_pace : forall start s, R s (snd (pace configuration w start s)).

Lemma step_spec {A} (c : M A) : (forall s, R s (snd (c s))) -> spec c R anything.
Proof. intros H s. split; [apply H | now destruct (fst (c s))]. Qed.

Lemma any_spec {A} (c : M A) (Q : A -> Prop) : spec c R Q -> spec c R anything.
Proof. intros H. eapply spec_weaken; [exact H | intros; exact I]. Qed.

Ltac chain :=
  lazymatch goal with
  | |- spec (ret _) _ _ => apply spec_ret; [apply R_refl | exact I]
  | |- spec (raise _) _ _ => apply spec_raise; apply R_refl
  | |- spec out_of_fuel _ _ => apply spec_out_of_fuel; apply R_refl
  | |- spec (lift _) _ _ => apply spec_lift; [apply R_refl | intros; exact I]
  | |- spec (bind _ _) _ _ =>
      eapply spec_bind with (Q := anything); [apply R_trans | | intros ? _]
  end.

Lemma advance_cursor_respects c : spec (advance_cursor c) R anything.
Proof.
  unfold advance_cursor. chain; [apply step_spec, R_fetch |]. repeat chain.
Qed.

Lemma flush_if_full_respects messages : spec (flush_if_full messages) R anything.
Proof.
  unfold flush_if_full. destruct (_ >? _) eqn:Hfull; [| chain].
  chain; [| chain]. apply step_spec. intros s. apply R_send.
  intros ->. simpl in Hfull. unfold pagination_limit in Hfull.
  apply Z.gtb_lt in Hfull. lia.
Qed.

Lemma handle_page_respects batch c messages :
  spec (handle_page batch c messages) R anything.
Proof.
  unfold handle_page. destruct (is_None batch); [chain |].
  chain; [chain |]. chain.
  - destruct (negb (is_None a)); [apply advance_cursor_respects | chain].
  - chain; [chain |]. chain; [apply step_spec, R_observe |].
    chain; [chain |]. chain; [apply flush_if_full_respects | chain].
Qed.

Lemma loop_body_respects c messages : spec (loop_body c messages) R anything.
Proof.
  unfold loop_body. chain; [apply step_spec, R_fetch | apply handle_page_respects].
Qed.

Lemma drain_loop_respects fuel : forall has_more c messages,
  spec (drain_loop fuel has_more c messages) R anything.
Proof.
  induction fuel as [|fuel IH]; intros has_more c messages; simpl;
    (destruct (truthy has_more); [| chain]);
    (chain; [apply step_spec, R_running |]);
    (destruct a; [| chain]).
  - chain.
  - chain; [apply loop_body_respects |]. destruct a as [|h c' m]; [chain | apply IH].
Qed.

Lemma finish_respects c messages : spec (finish c messages) R anything.
Proof.
  unfold finish. chain; [apply step_spec, R_save |].
  destruct messages as [|m ms]; apply step_spec; intros s.
  - apply R_log.
  - apply R_send. discriminate.
Qed.

Lemma forward_next_batches_respects fuel : spec (forward_next_batches fuel) R anything.
Proof.
  unfold forward_next_batches, drain_from.
  chain; [apply step_spec; intros s; apply R_refl |].
  chain; [apply drain_loop_respects | apply finish_respects].
Qed.

Lemma guarded_drain_respects fuel : spec (guarded_drain fuel) R anything.
Proof.
  unfold guarded_drain. apply spec_try_catch; [apply R_trans | |].
  - apply forward_next_batches_respects.
  - intros ex. destruct (is_http_error ex).
    + apply step_spec, R_log_exception.
    + chain; [apply step_spec, R_log_exception | chain].
Qed.

Lemma run_cycle_respects fuel : spec (run_cycle fuel) R anything.
Proof.
  unfold run_cycle. chain; [apply step_spec, R_time |].
  chain; [apply guarded_drain_respects | apply step_spec, R_pace].
Qed.

Lemma run_loop_respects cycles fuel : spec (run_loop cycles fuel) R anything.
Proof.
  induction cycles as [|cycles IH]; simpl;
    (chain; [apply step_spec, R_running |]); (destruct a; [| chain]).
  - chain.
  - chain; [apply run_cycle_respects | apply IH].
Qed.

Lemma run_respects cycles fuel : spec (run cycles fuel) R anything.
Proof.
  unfold run. chain; [apply step_spec, R_log |].
  intros s. unfold finally.
  destruct (run_loop_respects cycles fuel s) as [H _].
  destruct (run_loop cycles fuel s) as [r s']. simpl in *.
  split; [| now destruct r]. eapply R_trans; [exact H | apply R_log].
Qed.

End Invariant.

(** ** What the scheduler does to its collaborators *)

Section Conduct.

Variable configuration : LaceworkConfiguration.
Variable w : world.
Variable dumps : pyval -> exn + string.
Variable strptime_timestamp : pyval -> exn + Q.
Variable gt_other : pyval -> pyval -> exn + bool.

Local Abbreviation forward_next_batches :=
  (forward_next_batches configuration w dumps strptime_timestamp gt_other).
Local Abbreviation guarded_drain :=
  (guarded_drain configuration w dumps strptime_timestamp gt_other).
Local Abbreviation run_cycle :=
  (run_cycle configuration w dumps strptime_timestamp gt_other).
Local Abbreviation run_loop :=
  (run_loop configuration w dumps strptime_timestamp gt_other).
Local Abbreviation run := (run configuration w dumps strptime_timestamp gt_other).

Lemma emits_exact P s s' evs :
  trace s' = trace s ++ evs -> Forall P evs -> emits P s s'.
Proof. intros Ht F. now exists evs. Qed.

Lemma emits_nothing P s s' : trace s' = trace s -> emits P s s'.
Proof. intros Ht. apply emits_exact with (evs := []); [now rewrite app_nil_r | constructor]. Qed.

Lemma request_parameters_well_formed now c :
  well_formed_request configuration (request_parameters configuration now c).
Proof.
  unfold request_parameters, lookback_parameters, well_formed_request, pagination_limit.
  destruct (truthy c) eqn:Hc; simpl; (split; [reflexivity |]).
  - left. now exists c.
  - right. now eexists.
Qed.

Lemma pick_Forall {A} (f : event -> option A) (P : event -> Prop) (Q : A -> Prop) evs :
  (forall e a, P e -> f e = Some a -> Q a) -> Forall P evs -> Forall Q (pick f evs).
Proof.
  intros H. induction 1 as [|e l He _ IH]; simpl; [constructor |].
  destruct (f e) as [a|] eqn:E; [constructor; eauto | exact IH].
Qed.

(** Every event of the scheduler's loop is well formed. *)
Lemma run_loop_well_formed cycles fuel s :
  emits (well_formed_event configuration) s (snd (run_loop cycles fuel s)).
Proof.
  refine (proj1 (run_loop_respects configuration w dumps strptime_timestamp gt_other
                   (emits (well_formed_event configuration))
                   (emits_refl _) (emits_trans _) _ _ _ _ _ _ _ _ _ cycles fuel s)).
  - intros s0. now apply emits_nothing.
  - intros s0. now apply emits_nothing.
  - intros c s0.
    destruct (get_next_events_trace configuration w c s0) as (_ & tail & Ht & Htail).
    eapply emits_exact; [exact Ht |]. constructor.
    + apply request_parameters_well_formed.
    + destruct Htail as [-> | (st & re & ->)]; repeat constructor.
  - intros items s0.
    destruct (observe_items_trace configuration w strptime_timestamp gt_other items s0)
      as (_ & [Ht | (lag & n & Ht)]).
    + now apply emits_nothing.
    + eapply emits_exact; [exact Ht |]. repeat constructor.
  - intros messages s0 Hne.
    destruct (send_batch_trace configuration w messages s0) as (_ & Ht).
    eapply emits_exact; [exact Ht |]. repeat constructor. exact Hne.
  - intros c s0. eapply emits_exact with (evs := [EvCursorSaved c]);
      [reflexivity | repeat constructor].
  - intros level m s0. eapply emits_exact with (evs := [EvLog level m]);
      [reflexivity | repeat constructor].
  - intros ex m s0. eapply emits_exact with (evs := [EvLogException ex m]);
      [reflexivity | repeat constructor].
  - intros start s0. destruct (pace_run configuration w start s0) as (s1 & E & _ & _ & Ht).
    rewrite E. simpl. eapply emits_exact; [exact Ht |].
    constructor; [exact I |].
    destruct (_ >? 0) eqn:Hpos; [| constructor].
    repeat constructor. simpl. now apply Z.gtb_lt in Hpos.
Qed.

(** A run is the log of its start, the scheduler's loop, and the log of
    its stop. *)
Lemma run_trace cycles fuel s :
  let s1 := snd (log "info" MsgStarted s) in
  exists evs,
    trace (snd (run_loop cycles fuel s1)) = trace s1 ++ evs /\
    Forall (well_formed_event configuration) evs /\
    trace (snd (run cycles fuel s)) =
      trace s ++ EvLog "info" MsgStarted :: evs ++ [EvLog "info" MsgStopped] /\
    fst (run cycles fuel s) = fst (run_loop cycles fuel s1).
Proof.
  intros s1. destruct (run_loop_well_formed cycles fuel s1) as (evs & Ht & F).
  exists evs. split; [exact Ht |]. split; [exact F |].
  assert (E : run cycles fuel s =
              (fst (run_loop cycles fuel s1),
               snd (log "info" MsgStopped (snd (run_loop cycles fuel s1))))).
  { unfold run, bind, finally. change (log "info" MsgStarted s) with (Normal tt, s1).
    cbv iota beta. now destruct (run_loop cycles fuel s1). }
  rewrite E. simpl. rewrite Ht. unfold s1. simpl. rewrite <- !app_assoc. now split.
Qed.

(** Every event of a run is well formed. *)
Lemma run_well_formed cycles fuel s :
  emits (well_formed_event configuration) s (snd (run cycles fuel s)).
Proof.
  destruct (run_trace cycles fuel s) as (evs & _ & F & Ht & _).
  eapply emits_exact; [exact Ht |].
  constructor; [exact I |]. apply Forall_app. split; [exact F | repeat constructor].
Qed.

Lemma run_events cycles fuel s :
  Forall (well_formed_event configuration) (events_since s (snd (run cycles fuel s))).
Proof.
  destruct (run_well_formed cycles fuel s) as (evs & Ht & F).
  now rewrite (events_since_app _ _ _ Ht).
Qed.

(** X1. Every request that a run of the connector sends to the vendor asks
    for [max(chunk_size, 1000)] records a page, and carries either the
    cursor, when there is one, or a start time, and never both. *)
Theorem requests_are_well_formed cycles fuel s :
  Forall (well_formed_request configuration)
    (requests (events_since s (snd (run cycles fuel s)))).
Proof.
  eapply pick_Forall; [| apply run_events].
  intros [] ps He Hf; simpl in *; try discriminate. now injection Hf as <-.
Qed.

(** X2. A run of the connector never hands an empty batch to the
    Forwarder. *)
Theorem never_forwards_an_empty_batch cycles fuel s :
  Forall (fun batch => batch <> [])
    (pushes (events_since s (snd (run cycles fuel s)))).
Proof.
  eapply pick_Forall; [| apply run_events].
  intros [] b He Hf; simpl in *; try discriminate. now injection Hf as <-.
Qed.

(** X3. A run of the connector only ever sleeps for a positive number of
    seconds. *)
Theorem sleeps_are_positive cycles fuel s :
  Forall (fun seconds => 0 < seconds)
    (sleeps (events_since s (snd (run cycles fuel s)))).
Proof.
  eapply pick_Forall; [| apply run_events].
  intros [] z He Hf; simpl in *; try discriminate. now injection Hf as <-.
Qed.

(** X6. Whatever happens, [run] logs that the trigger has started before
    anything else and that it has stopped after everything else; and when
    the connector is already told to stop, it does nothing in between. *)
Theorem run_logs_start_and_stop cycles fuel s :
  exists evs,
    events_since s (snd (run cycles fuel s)) =
      EvLog "info" MsgStarted :: evs ++ [EvLog "info" MsgStopped] /\
    (w_running w (n_running s) = false ->
     evs = [] /\ fst (run cycles fuel s) = Normal tt).
Proof.
  destruct (run_trace cycles fuel s) as (evs & Hloop & _ & Ht & Hr).
  exists evs. split; [now apply events_since_app |].
  intros Hstop. rewrite Hr.
  set (s1 := snd (log "info" MsgStarted s)) in *.
  assert (E : run_loop cycles fuel s1 = (Normal tt, snd (running w s1))).
  { destruct cycles; simpl; unfold bind; simpl; now rewrite Hstop. }
  rewrite E in *. simpl in Hloop. split; [| reflexivity].
  destruct evs; [reflexivity |].
  apply (f_equal (@List.length event)) in Hloop. rewrite !length_app in Hloop.
  simpl in Hloop. lia.
Qed.

End Conduct.

(** ** Counting what is forwarded *)

Section Accounting.

Variable configuration : LaceworkConfiguration.
Variable w : world.
Variable dumps : pyval -> exn + string.
Variable strptime_timestamp : pyval -> exn + Q.
Variable gt_other : pyval -> pyval -> exn + bool.

Local Abbreviation run_loop :=
  (run_loop configuration w dumps strptime_timestamp gt_other).
Local Abbreviation run := (run configuration w dumps strptime_timestamp gt_other).

Lemma total_app f l1 l2 : total f (l1 ++ l2) = (total f l1 + total f l2)%nat.
Proof. induction l1 as [|e l1 IH]; simpl; [reflexivity | rewrite IH; lia]. Qed.

Lemma total_silent evs :
  Forall silent evs -> total outcoming_of evs = 0%nat /\ total forwarded_of evs = 0%nat.
Proof.
  induction 1 as [|e l He _ [IH1 IH2]]; simpl; [now split |].
  rewrite IH1, IH2. destruct e as [| | | | | |label []]; simpl in *; try contradiction; now split.
Qed.

Lemma balanced_refl s : balanced s s.
Proof. exists []. now rewrite app_nil_r. Qed.

Lemma balanced_trans s1 s2 s3 : balanced s1 s2 -> balanced s2 s3 -> balanced s1 s3.
Proof.
  intros (e1 & H1 & B1) (e2 & H2 & B2). exists (e1 ++ e2). split.
  - now rewrite H2, H1, app_assoc.
  - rewrite !total_app. lia.
Qed.

Lemma balanced_silent s s' evs :
  trace s' = trace s ++ evs -> Forall silent evs -> balanced s s'.
Proof.
  intros Ht F. exists evs. split; [exact Ht |].
  destruct (total_silent evs F) as [-> ->]. reflexivity.
Qed.

Lemma run_balanced cycles fuel s : balanced s (snd (run cycles fuel s)).
Proof.
  refine (proj1 (run_respects configuration w dumps strptime_timestamp gt_other
                   balanced balanced_refl balanced_trans _ _ _ _ _ _ _ _ _ cycles fuel s)).
  - intros s0. apply balanced_silent with (evs := []); [now rewrite app_nil_r | constructor].
  - intros s0. apply balanced_silent with (evs := []); [now rewrite app_nil_r | constructor].
  - intros c s0.
    destruct (get_next_events_trace configuration w c s0) as (_ & tail & Ht & Htail).
    eapply balanced_silent; [exact Ht |].
    destruct Htail as [-> | (st & re & ->)]; repeat constructor.
  - intros items s0.
    destruct (observe_items_trace configuration w strptime_timestamp gt_other items s0)
      as (_ & [Ht | (lag & n & Ht)]).
    + apply balanced_silent with (evs := []); [now rewrite app_nil_r | constructor].
    + eapply balanced_silent; [exact Ht |]. repeat constructor.
  - intros messages s0 _.
    destruct (send_batch_trace configuration w messages s0) as (_ & Ht).
    eexists. split; [exact Ht |]. simpl. lia.
  - intros c s0. apply balanced_silent with (evs := [EvCursorSaved c]);
      [reflexivity | repeat constructor].
  - intros level m s0. apply balanced_silent with (evs := [EvLog level m]);
      [reflexivity | repeat constructor].
  - intros ex m s0. apply balanced_silent with (evs := [EvLogException ex m]);
      [reflexivity | repeat constructor].
  - intros start s0. destruct (pace_run configuration w start s0) as (s1 & E & _ & _ & Ht).
    rewrite E. simpl. eapply balanced_silent; [exact Ht |].
    destruct (_ >? 0); repeat constructor.
Qed.

(** X4. Over a run of the connector the counter of outgoing events grows
    by the number of messages handed to the Forwarder, whether or not the
    Forwarder accepts them. *)
Theorem outcoming_counter_matches_forwarded cycles fuel s :
  total outcoming_of (events_since s (snd (run cycles fuel s))) =
  fold_right (fun batch n => (List.length batch + n)%nat) 0%nat
    (pushes (events_since s (snd (run cycles fuel s)))).
Proof.
  destruct (run_balanced cycles fuel s) as (evs & Ht & Hb).
  rewrite (events_since_app _ _ _ Ht), Hb. clear.
  induction evs as [|e evs IH]; simpl; [reflexivity |].
  rewrite IH. destruct e; reflexivity.
Qed.

Lemma bind_inv_raised {A B} (c : M A) (k : A -> M B) s ex s' :
  bind c k s = (Raised ex, s') ->
  c s = (Raised ex, s') \/ exists a s1, c s = (Normal a, s1) /\ k a s1 = (Raised ex, s').
Proof.
  unfold bind. destruct (c s) as [[a|e|] s1]; intros H; try discriminate.
  - right. now exists a, s1.
  - left. now injection H as -> ->.
Qed.

Lemma guarded_drain_fatal fuel s ex s' :
  guarded_drain configuration w dumps strptime_timestamp gt_other fuel s = (Raised ex, s') ->
  is_http_error ex = false /\
  exists evs, trace s' = trace s ++ evs ++ [EvLogException ex MsgUnknownException].
Proof.
  pose proof (forward_next_batches_emits configuration w dumps strptime_timestamp
                gt_other fuel s) as (evs & Ht & _).
  unfold guarded_drain, try_catch.
  destruct (forward_next_batches configuration w dumps strptime_timestamp gt_other fuel s)
    as [[[]|e|] s1]; try discriminate.
  destruct (is_http_error e) eqn:He; [discriminate |].
  unfold bind, log_exception, emit, raise. simpl. intros H. injection H as <- <-.
  split; [exact He |]. exists evs. simpl in *. now rewrite Ht, <- app_assoc.
Qed.

Lemma run_cycle_fatal fuel s ex s' :
  run_cycle configuration w dumps strptime_timestamp gt_other fuel s = (Raised ex, s') ->
  is_http_error ex = false /\
  exists evs, trace s' = trace s ++ evs ++ [EvLogException ex MsgUnknownException].
Proof.
  rewrite run_cycle_unfold. intros H.
  apply bind_inv_raised in H. destruct H as [H | ([] & s1 & _ & H)].
  - exact (guarded_drain_fatal _ _ _ _ H).
  - destruct (pace_run configuration w (w_clock w (n_clock s)) s1) as (s2 & E & _).
    rewrite E in H. discriminate.
Qed.

Lemma run_cycle_extends fuel s :
  exists evs, trace (snd (run_cycle configuration w dumps strptime_timestamp gt_other
                            fuel s)) = trace s ++ evs.
Proof.
  rewrite run_cycle_unfold.
  pose proof (guarded_drain_emits configuration w dumps strptime_timestamp
                gt_other fuel (snd (time_time w s))) as (evs & Ht & _).
  unfold bind at 1.
  destruct (guarded_drain configuration w dumps strptime_timestamp gt_other fuel
              (snd (time_time w s))) as [[[]|ex|] s2]; simpl in Ht;
    try (now exists evs).
  destruct (pace_run configuration w (w_clock w (n_clock s)) s2) as (s3 & E & _ & _ & Ht3).
  rewrite E. simpl. eexists. rewrite Ht3, Ht, <- app_assoc. reflexivity.
Qed.

Lemma run_loop_fatal cycles fuel : forall s ex s',
  run_loop cycles fuel s = (Raised ex, s') ->
  is_http_error ex = false /\
  exists evs, trace s' = trace s ++ evs ++ [EvLogException ex MsgUnknownException].
Proof.
  induction cycles as [|cycles IH]; intros s ex s' H;
    destruct (w_running w (n_running s)) eqn:Hflag;
    try (simpl in H; unfold bind at 1 in H; simpl in H; rewrite Hflag in H; discriminate).
  rewrite (run_loop_step configuration w dumps strptime_timestamp gt_other
             cycles fuel s Hflag) in H.
  apply bind_inv_raised in H. destruct H as [H | ([] & s1 & Hc & H)].
  - exact (run_cycle_fatal _ _ _ _ H).
  - destruct (IH _ _ _ H) as (He & evs & Ht). split; [exact He |].
    destruct (run_cycle_extends fuel (snd (running w s))) as (evs0 & Ht0).
    rewrite Hc in Ht0. simpl in Ht0.
    exists (evs0 ++ evs). now rewrite Ht, Ht0, <- !app_assoc.
Qed.


End Accounting.

(** ** The shape of a drain *)

Section Drains.

Variable configuration : LaceworkConfiguration.
Variable w : world.
Variable dumps : pyval -> exn + string.
Variable strptime_timestamp : pyval -> exn + Q.
Variable gt_other : pyval -> pyval -> exn + bool.

Local Abbreviation get_next_events := (get_next_events configuration w).
Local Abbreviation advance_cursor := (advance_cursor configuration w gt_other).
Local Abbreviation observe_items := (observe_items configuration w strptime_timestamp gt_other).
Local Abbreviation send_batch := (send_batch configuration w).
Local Abbreviation flush_if_full := (flush_if_full configuration w).
Local Abbreviation handle_page :=
  (handle_page configuration w dumps strptime_timestamp gt_other).
Local Abbreviation loop_body :=
  (loop_body configuration w dumps strptime_timestamp gt_other).
Local Abbreviation drain_loop :=
  (drain_loop configuration w dumps strptime_timestamp gt_other).
Local Abbreviation finish := (finish configuration w).
Local Abbreviation forward_next_batches :=
  (forward_next_batches configuration w dumps strptime_timestamp gt_other).

(** *** Nothing but the loop needs fuel *)

Lemma settles_ret {A} (a : A) : settles (ret a).
Proof. intros s. discriminate. Qed.

Lemma settles_lift {A} (r : exn + A) : settles (lift r).
Proof. intros s. destruct r; discriminate. Qed.

Lemma settles_bind {A B} (c : M A) (k : A -> M B) :
  settles c -> (forall a, settles (k a)) -> settles (bind c k).
Proof.
  intros Hc Hk s. unfold bind. specialize (Hc s).
  destruct (c s) as [[a|ex|] s1]; simpl in *; [apply Hk | discriminate | contradiction].
Qed.

Lemma settles_emit e : settles (emit e).
Proof. intros s. discriminate. Qed.

Lemma settles_time : settles (time_time w).
Proof. intros s. discriminate. Qed.

Lemma settles_list_alerts parameters : settles (list_alerts w parameters).
Proof. intros s. unfold list_alerts. destruct (w_client w (n_client s)); discriminate. Qed.

Lemma settles_push events : settles (push_events_to_intakes w events).
Proof. intros s. unfold push_events_to_intakes. destruct (w_push w (n_push s)); discriminate. Qed.

Ltac settle :=
  repeat first
    [ apply settles_ret | apply settles_lift | apply settles_emit | apply settles_time
    | apply settles_list_alerts | apply settles_push
    | apply settles_bind; [| intros ?] ].

Lemma get_next_events_settles c : settles (get_next_events c).
Proof.
  unfold get_next_events. apply settles_bind.
  - destruct (truthy c); settle.
  - intros parameters. apply settles_bind; [settle |]. intros r.
    destruct (negb (ok r)); unfold log; settle.
Qed.

Lemma send_batch_settles messages : settles (send_batch messages).
Proof. unfold send_batch, log, metric. settle. Qed.

Lemma handle_page_settles batch c messages : settles (handle_page batch c messages).
Proof.
  unfold handle_page. destruct (is_None batch); [settle |].
  apply settles_bind; [settle |]. intros marker. apply settles_bind.
  - destruct (negb (is_None marker)); [| settle].
    unfold advance_cursor. apply settles_bind; [apply get_next_events_settles |].
    intros again. settle.
  - intros fc. apply settles_bind; [settle |]. intros items. apply settles_bind.
    + unfold observe_items, metric. apply settles_bind; [settle |]. intros n.
      destruct (0 <? n)%nat; settle.
    + intros _. apply settles_bind; [settle |]. intros serialized.
      apply settles_bind; [| intros; settle].
      unfold flush_if_full. destruct (_ >? _); [| settle].
      apply settles_bind; [apply send_batch_settles | intros; settle].
Qed.

Lemma finish_settles c messages : settles (finish c messages).
Proof.
  unfold finish. apply settles_bind; [intros s; discriminate |]. intros _.
  destruct messages; [unfold log; settle | apply send_batch_settles].
Qed.

(** *** One pass *)

Lemma handle_page_hands_over batch c messages :
  spec (handle_page batch c messages) (frame loop_event) (hands_over c).
Proof.
  unfold handle_page.
  destruct (is_None batch); [now frame_step |].
  eapply frame_bind; [apply frame_lift_any |]. intros marker _.
  eapply frame_bind with (Q := fun fc => fst fc = PyBool false /\ snd fc = c).
  - destruct (negb (is_None marker)).
    + eapply spec_weaken; [apply advance_cursor_never | intros ? []].
    + now frame_step.
  - intros fc Hfc.
    eapply frame_bind; [apply frame_lift_any |]. intros items _.
    eapply frame_bind; [apply observe_items_frame; intros; exact I |]. intros _ _.
    eapply frame_bind; [apply frame_lift_any |]. intros serialized _.
    eapply frame_bind; [apply flush_if_full_frame |]. intros messages' _.
    now frame_step.
Qed.

(** What a drain does once it has loaded its cursor and found the
    connector running: one fetch, the page it got, and lines 164-171. The
    fuel plays no part. *)
Lemma forward_next_batches_unfold fuel s :
  w_running w (n_running s) = true ->
  let c := stored_cursor (context s) in
  forward_next_batches (S fuel) s =
    match get_next_events c (snd (running w s)) with
    | (Normal batch, s2) =>
        match handle_page batch c [] s2 with
        | (Normal Break, s3) => finish c [] s3
        | (Normal (Next _ _ messages), s3) => finish c messages s3
        | (Raised ex, s3) => (Raised ex, s3)
        | (OutOfFuel, s3) => (OutOfFuel, s3)
        end
    | (Raised ex, s2) => (Raised ex, s2)
    | (OutOfFuel, s2) => (OutOfFuel, s2)
    end.
Proof.
  intros Hrun c. rewrite (forward_next_batches_enter configuration w dumps
                            strptime_timestamp gt_other fuel s Hrun).
  fold c. unfold loop_body. rewrite !bind_assoc. unfold bind at 1.
  destruct (get_next_events c (snd (running w s))) as [[batch|ex|] s2]; try reflexivity.
  unfold bind at 1.
  destruct (handle_page_hands_over batch c [] s2) as [_ Hp].
  destruct (handle_page batch c [] s2) as [[[|h c' m]|ex|] s3]; simpl in Hp; try reflexivity.
  destruct Hp as [-> ->].
  rewrite (bind_normal _ _ _ _ _
             (drain_loop_exhausted configuration w dumps strptime_timestamp gt_other
                fuel (PyBool false) c m s3 eq_refl)).
  reflexivity.
Qed.

Lemma forward_next_batches_stopped fuel s :
  w_running w (n_running s) = false ->
  forward_next_batches fuel s = finish (stored_cursor (context s)) [] (snd (running w s)).
Proof.
  intros Hstop. unfold forward_next_batches, drain_from.
  rewrite (bind_normal _ _ _ _ _ (cursor_returns s)).
  now rewrite (bind_normal _ _ _ _ _
                 (drain_loop_stopped configuration w dumps strptime_timestamp gt_other
                    fuel (PyBool true) _ [] s eq_refl Hstop)).
Qed.

(** *** The flag is read once *)

Lemma same_flag_reads_trans s1 s2 s3 :
  same_flag_reads s1 s2 -> same_flag_reads s2 s3 -> same_flag_reads s1 s3.
Proof. unfold same_flag_reads. congruence. Qed.

Lemma get_next_events_flag c s : same_flag_reads s (snd (get_next_events c s)).
Proof.
  unfold same_flag_reads, get_next_events, bind, lift, ret, time_time, list_alerts, log, emit.
  destruct (truthy c); simpl;
    (destruct (w_client w (n_client s)) as [ex | r]; simpl; [reflexivity |]);
    (destruct (ok r); simpl; [destruct (json r); reflexivity | reflexivity]).
Qed.

Lemma observe_items_flag items s : same_flag_reads s (snd (observe_items items s)).
Proof.
  unfold same_flag_reads, observe_items, bind, lift, ret, raise, time_time, metric, emit.
  destruct (py_len items) as [ex | n]; simpl; [reflexivity |].
  destruct (0 <? n)%nat; simpl; [| reflexivity].
  destruct (_get_most_recent_timestamp_from_items strptime_timestamp gt_other items);
    reflexivity.
Qed.

Lemma send_batch_flag messages s : same_flag_reads s (snd (send_batch messages s)).
Proof.
  unfold same_flag_reads, send_batch, log, metric, emit, bind, push_events_to_intakes. simpl.
  destruct (w_push w (n_push s)); reflexivity.
Qed.

Lemma handle_page_flag batch c messages s :
  same_flag_reads s (snd (handle_page batch c messages s)).
Proof.
  refine (proj1 (handle_page_respects configuration w dumps strptime_timestamp gt_other
                   same_flag_reads (fun _ => eq_refl) same_flag_reads_trans
                   get_next_events_flag observe_items_flag
                   (fun messages s _ => send_batch_flag messages s)
                   batch c messages s)).
Qed.

Lemma finish_flag c messages s : same_flag_reads s (snd (finish c messages s)).
Proof.
  destruct (finish_run configuration w c messages s) as (r & s' & E & _ & _ & H & _).
  now rewrite E.
Qed.

(** A drain reads the flag once, at the first test of its loop: whatever
    the vendor sends, no pass is followed by a second reading. *)
Lemma drain_reads_the_flag_once fuel s :
  n_running (snd (forward_next_batches (S fuel) s)) = S (n_running s).
Proof.
  destruct (w_running w (n_running s)) eqn:Hflag.
  - rewrite (forward_next_batches_unfold fuel s Hflag). cbv zeta.
    pose proof (get_next_events_flag (stored_cursor (context s)) (snd (running w s))) as H1.
    destruct (get_next_events (stored_cursor (context s)) (snd (running w s)))
      as [[batch|ex|] s2]; simpl in H1; try exact H1.
    pose proof (handle_page_flag batch (stored_cursor (context s)) [] s2) as H2.
    destruct (handle_page batch (stored_cursor (context s)) [] s2)
      as [[[|h c' m]|ex|] s3]; simpl in H2;
      try (unfold same_flag_reads in *; simpl in *; congruence);
      match goal with
      | |- context [finish ?c ?m ?s] => pose proof (finish_flag c m s) as H3
      end;
      unfold same_flag_reads in *; simpl in *; congruence.
  - rewrite (forward_next_batches_stopped (S fuel) s Hflag).
    pose proof (finish_flag (stored_cursor (context s)) [] (snd (running w s))) as H3.
    exact H3.
Qed.

(** X7. The loop of a drain makes at most one pass: whatever the vendor
    answers, a drain that is allowed one pass returns or raises, and
    allowing it more passes changes nothing. *)
Theorem drain_makes_one_pass fuel s :
  fst (forward_next_batches 1 s) <> OutOfFuel /\
  forward_next_batches (S fuel) s = forward_next_batches 1 s.
Proof.
  destruct (w_running w (n_running s)) eqn:Hrun.
  - split; [| now rewrite !forward_next_batches_unfold].
    rewrite forward_next_batches_unfold by exact Hrun. cbv zeta.
    pose proof (get_next_events_settles (stored_cursor (context s)) (snd (running w s))) as Hg.
    destruct (get_next_events (stored_cursor (context s)) (snd (running w s)))
      as [[batch|ex|] s2]; simpl in Hg; [| discriminate | contradiction].
    pose proof (handle_page_settles batch (stored_cursor (context s)) [] s2) as Hh.
    destruct (handle_page batch (stored_cursor (context s)) [] s2)
      as [[[|h c' m]|ex|] s3]; simpl in Hh; try discriminate; try contradiction;
      apply finish_settles.
  - split; [| now rewrite !forward_next_batches_stopped].
    rewrite forward_next_batches_stopped by exact Hrun. apply finish_settles.
Qed.

(** *** What a fetch leaves behind *)

Lemma get_next_events_page c s batch :
  fetches w s batch ->
  exists s1,
    get_next_events c s = (Normal batch, s1) /\ context s1 = context s /\
    trace s1 = trace s ++
      [EvListAlerts (request_parameters configuration (w_clock w (n_clock s)) c)].
Proof.
  intros Hf.
  destruct (get_next_events_fetches configuration w c s batch Hf)
    as (s1 & E & _ & _ & Hc & ps & Ht).
  destruct (get_next_events_trace configuration w c s) as (_ & tail & Ht' & _).
  rewrite E in Ht'. simpl in Ht'. rewrite Ht in Ht'. apply app_inv_head in Ht'.
  injection Ht' as -> _. now exists s1.
Qed.

Lemma get_next_events_status c s r :
  w_client w (n_client s) = ClientResponse r -> ok r = false ->
  exists s1,
    get_next_events c s = (Normal PyNone, s1) /\ context s1 = context s /\
    trace s1 = trace s ++
      [EvListAlerts (request_parameters configuration (w_clock w (n_clock s)) c);
       EvLog "error" (MsgRequestFailed (status_code r) (reason r))].
Proof.
  intros Hr Hok.
  unfold get_next_events, request_parameters, lookback_parameters, bind, list_alerts, log, emit.
  destruct (truthy c); simpl; rewrite Hr, Hok; simpl;
    eexists; (split; [reflexivity |]); simpl; (split; [reflexivity |]);
    now rewrite <- app_assoc.
Qed.

Lemma get_next_events_raises c s ex :
  fetch_raises w s ex ->
  exists s1,
    get_next_events c s = (Raised ex, s1) /\ context s1 = context s /\
    trace s1 = trace s ++
      [EvListAlerts (request_parameters configuration (w_clock w (n_clock s)) c)].
Proof.
  intros H.
  unfold get_next_events, request_parameters, lookback_parameters, bind, list_alerts, log, emit.
  destruct H as [Hr | (r & Hr & Hok & Hj)];
    destruct (truthy c); simpl; rewrite Hr; simpl;
    try (rewrite Hok; simpl; rewrite Hj; simpl);
    eexists; (split; [reflexivity |]); simpl; now split.
Qed.

(** *** Drains that end before any record is read *)

(** X8. A drain that starts when the connector is told to stop sends no
    request and forwards nothing: it saves the cursor it loaded, logs that
    there is no message to forward, and returns. *)
Theorem stopped_before_the_first_page fuel s :
  w_running w (n_running s) = false ->
  exists s',
    forward_next_batches fuel s = (Normal tt, s') /\
    events_since s s' =
      [EvCursorSaved (stored_cursor (context s)); EvLog "info" MsgNoMessages].
Proof.
  intros Hstop. rewrite (forward_next_batches_stopped fuel s Hstop).
  destruct (finish_empty configuration w (stored_cursor (context s)) (snd (running w s)))
    as (s' & E & Ht).
  exists s'. split; [exact E | now apply events_since_app].
Qed.

(** X9. When the vendor answers the request of a drain with a failure
    status, the body of the response is not read: the drain logs the status
    and the reason, saves the cursor it loaded, logs that there is no
    message to forward, and returns normally. *)
Theorem failure_status_ends_the_drain fuel s r :
  w_running w (n_running s) = true ->
  w_client w (n_client s) = ClientResponse r -> ok r = false ->
  let c := stored_cursor (context s) in
  exists s',
    forward_next_batches (S fuel) s = (Normal tt, s') /\
    events_since s s' =
      [EvListAlerts (request_parameters configuration (w_clock w (n_clock s)) c);
       EvLog "error" (MsgRequestFailed (status_code r) (reason r));
       EvCursorSaved c;
       EvLog "info" MsgNoMessages].
Proof.
  intros Hrun Hr Hok c. rewrite (forward_next_batches_unfold fuel s Hrun). fold c.
  destruct (get_next_events_status c (snd (running w s)) r Hr Hok) as (s1 & E & _ & Ht).
  rewrite E. unfold handle_page. simpl is_None. cbv iota. unfold ret at 1.
  destruct (finish_empty configuration w c s1) as (s' & E' & Ht').
  exists s'. split; [exact E' |]. apply events_since_app.
  rewrite Ht', Ht. simpl. now rewrite <- app_assoc.
Qed.

(** X10. An exception of the client, or of the parser of the response
    body, leaves the drain as it is: after the one request nothing is
    logged, forwarded or saved, and the context is untouched. *)
Theorem fetch_exception_leaves_the_drain fuel s ex :
  w_running w (n_running s) = true ->
  fetch_raises w s ex ->
  exists s',
    forward_next_batches (S fuel) s = (Raised ex, s') /\
    context s' = context s /\
    events_since s s' =
      [EvListAlerts (request_parameters configuration (w_clock w (n_clock s))
                       (stored_cursor (context s)))].
Proof.
  intros Hrun Hf. rewrite (forward_next_batches_unfold fuel s Hrun).
  destruct (get_next_events_raises (stored_cursor (context s)) (snd (running w s)) ex Hf)
    as (s1 & E & Hc & Ht).
  rewrite E. exists s1. split; [reflexivity |]. split; [exact Hc |].
  now apply events_since_app.
Qed.

(** *** Drains over a last page *)

Lemma pagination_limit_positive : 0 < pagination_limit configuration.
Proof. unfold pagination_limit. lia. Qed.

(** X11. A last page without records, or without the key [data], ends the
    drain with no metric and no call of the Forwarder: after its request
    the drain saves the cursor it loaded and logs that there is no message
    to forward. *)
Theorem empty_page_forwards_nothing fuel s batch :
  w_running w (n_running s) = true ->
  fetches w s batch -> is_None batch = false -> is_last_page batch ->
  py_get batch "data" (PyList []) = inr (PyList []) ->
  let c := stored_cursor (context s) in
  exists s',
    forward_next_batches (S fuel) s = (Normal tt, s') /\
    events_since s s' =
      [EvListAlerts (request_parameters configuration (w_clock w (n_clock s)) c);
       EvCursorSaved c;
       EvLog "info" MsgNoMessages].
Proof.
  intros Hrun Hf Hb Hlast Hdata c. rewrite (forward_next_batches_unfold fuel s Hrun). fold c.
  destruct (get_next_events_page c (snd (running w s)) batch Hf) as (s1 & E & _ & Ht).
  rewrite E. unfold handle_page. rewrite Hb.
  rewrite (bind_lift _ _ _ _ Hlast). simpl negb. cbv iota.
  rewrite bind_ret, (bind_lift _ _ _ _ Hdata).
  unfold observe_items, serialize_items, flush_if_full. simpl.
  pose proof pagination_limit_positive as Hpos.
  destruct (0 >? pagination_limit configuration) eqn:Hfull;
    [apply Z.gtb_lt in Hfull; lia |].
  unfold bind at 1. simpl. unfold bind at 1. simpl. unfold bind at 1. simpl.
  change (Z.of_nat 0) with 0. rewrite Hfull. simpl.
  destruct (finish_empty configuration w c s1) as (s' & E' & Ht').
  exists s'. split; [exact E' |]. apply events_since_app.
  rewrite Ht', Ht. simpl. now rewrite <- app_assoc.
Qed.

Lemma emap_Forall2 {A B} (f : A -> exn + B) xs : forall ys,
  emap f xs = inr ys -> Forall2 (fun x y => f x = inr y) xs ys.
Proof.
  induction xs as [|x xs IH]; intros ys; simpl.
  - intros H. injection H as <-. constructor.
  - destruct (f x) as [ex | y] eqn:Ex; simpl; [discriminate |].
    destruct (emap f xs) as [ex | ys'] eqn:Exs; simpl; [discriminate |].
    intros H. injection H as <-. constructor; [exact Ex | now apply IH].
Qed.

(** X12. When a drain gets a last page of well-formed records and the
    Forwarder accepts them, every record of the page is forwarded once,
    serialized by [orjson.dumps], in the order of the response and in one
    batch; the cursor is saved once, as it was loaded. *)
Theorem last_page_is_forwarded_whole fuel s batch xs serialized :
  w_running w (n_running s) = true ->
  fetches w s batch -> is_None batch = false -> is_last_page batch ->
  py_get batch "data" (PyList []) = inr (PyList xs) ->
  observable strptime_timestamp gt_other (PyList xs) ->
  emap dumps xs = inr serialized ->
  forwarder_accepts w ->
  exists s',
    forward_next_batches (S fuel) s = (Normal tt, s') /\
    Forall2 (fun x message => dumps x = inr message) xs serialized /\
    pushes (events_since s s') = match serialized with [] => [] | _ => [serialized] end /\
    saves (events_since s s') = [stored_cursor (context s)].
Proof.
  intros Hrun Hf Hb Hlast Hdata Hobs Hser Hacc.
  rewrite (forward_next_batches_unfold fuel s Hrun).
  set (c := stored_cursor (context s)).
  destruct (get_next_events_page c (snd (running w s)) batch Hf) as (s1 & E & _ & Ht1).
  rewrite E.
  destruct (handle_page_last configuration w dumps strptime_timestamp gt_other
              batch c [] s1 (PyList xs) serialized Hb Hlast Hdata Hobs Hser Hacc)
    as (s2 & E2 & _ & _ & evs & Ht2 & Hp & Hs).
  simpl app in E2, Hp. rewrite E2.
  set (full := Z.of_nat (List.length serialized) >? pagination_limit configuration) in *.
  set (rest := if full then [] else serialized) in *.
  destruct (finish_run configuration w c rest s2) as (r & s3 & E3 & _ & Ht3 & _ & Hn).
  rewrite (Hn Hacc) in E3. exists s3. split; [exact E3 |].
  split; [now apply emap_Forall2 |].
  rewrite (events_since_app s s3
             ((EvListAlerts (request_parameters configuration
                               (w_clock w (n_clock (snd (running w s)))) c) :: evs)
                ++ EvCursorSaved c :: final_events configuration rest)).
  - unfold pushes, saves in *. rewrite !pick_app. simpl. rewrite Hp, Hs.
    change (pick is_push (final_events configuration rest))
      with (pushes (final_events configuration rest)).
    rewrite pushes_final_events.
    assert (Hsv : pick is_saved (final_events configuration rest) = [])
      by (destruct rest; reflexivity).
    rewrite Hsv. split; [| reflexivity].
    unfold rest. destruct full eqn:Hfull; simpl.
    + destruct serialized; [| reflexivity].
      unfold full in Hfull. simpl in Hfull. apply Z.gtb_lt in Hfull.
      pose proof pagination_limit_positive. lia.
    + now destruct serialized.
  - rewrite Ht3, Ht2, Ht1. simpl. now rewrite <- !app_assoc.
Qed.


Lemma handle_page_small batch c messages s items serialized :
  is_None batch = false -> is_last_page batch ->
  py_get batch "data" (PyList []) = inr items ->
  observable strptime_timestamp gt_other items ->
  serialize_items dumps items = inr serialized ->
  (Z.of_nat (List.length (messages ++ serialized)) >? pagination_limit configuration) = false ->
  exists s', handle_page batch c messages s =
               (Normal (Next (PyBool false) c (messages ++ serialized)), s')
    /\ context s' = context s
    /\ exists evs, trace s' = trace s ++ evs /\ pushes evs = [] /\ saves evs = [].
Proof.
  intros Hb Hlast Hdata Hobs Hser Hsmall.
  unfold handle_page. rewrite Hb.
  rewrite (bind_lift _ _ _ _ Hlast). simpl negb. cbv iota.
  rewrite bind_ret. rewrite (bind_lift _ _ _ _ Hdata).
  destruct (observe_items_returns configuration w strptime_timestamp gt_other items s Hobs)
    as (s1 & E1 & Hc1 & _ & evs1 & Ht1 & Hp1 & Hs1).
  rewrite (bind_normal _ _ _ _ _ E1). rewrite (bind_lift _ _ _ _ Hser).
  unfold flush_if_full. rewrite Hsmall. rewrite bind_ret.
  exists s1. split; [reflexivity |]. split; [exact Hc1 |]. now exists evs1.
Qed.

(** X14. When the Forwarder raises on the final flush of a drain, the
    exception leaves the drain after the cursor was saved: the batch was
    handed over once and is not kept for another attempt. *)
Theorem forwarder_failure_after_the_save fuel s batch items serialized ex :
  w_running w (n_running s) = true ->
  fetches w s batch -> is_None batch = false -> is_last_page batch ->
  py_get batch "data" (PyList []) = inr items ->
  observable strptime_timestamp gt_other items ->
  serialize_items dumps items = inr serialized ->
  serialized <> [] ->
  Z.of_nat (List.length serialized) <= Z.max (chunk_size configuration) 1000 ->
  (forall n, w_push w n = Some ex) ->
  exists s',
    forward_next_batches (S fuel) s = (Raised ex, s') /\
    saves (events_since s s') = [stored_cursor (context s)] /\
    pushes (events_since s s') = [serialized] /\
    stored_cursor (context s') = stored_cursor (context s).
Proof.
  intros Hrun Hf Hb Hlast Hdata Hobs Hser Hne Hsmall Hpush.
  rewrite (forward_next_batches_unfold fuel s Hrun).
  set (c := stored_cursor (context s)).
  destruct (get_next_events_page c (snd (running w s)) batch Hf) as (s1 & E & _ & Ht1).
  rewrite E.
  assert (Hs : (Z.of_nat (List.length ([] ++ serialized)) >? pagination_limit configuration)
               = false).
  { simpl. unfold pagination_limit. rewrite Z.gtb_ltb. apply Z.ltb_ge. exact Hsmall. }
  destruct (handle_page_small batch c [] s1 items serialized Hb Hlast Hdata Hobs Hser Hs)
    as (s2 & E2 & _ & evs & Ht2 & Hp & Hsv).
  simpl app in E2. rewrite E2.
  destruct serialized as [|m ms]; [contradiction |].
  unfold finish, cursor_setter, send_batch, log, metric, emit, bind, push_events_to_intakes.
  simpl. rewrite Hpush. eexists. split; [reflexivity |]. simpl.
  rewrite (events_since_app s _
             ((EvListAlerts (request_parameters configuration
                               (w_clock w (n_clock (snd (running w s)))) c) :: evs)
                ++ [EvCursorSaved c; EvLog "info" (MsgSendingBatch (S (List.length ms)));
                    EvMetric (intake_key configuration)
                      (OUTCOMING_EVENTS_inc (S (List.length ms)));
                    EvPush (m :: ms)])).
  - unfold pushes, saves in *. rewrite !pick_app. simpl. rewrite Hp, Hsv.
    repeat split. apply stored_cursor_insert.
  - simpl. rewrite Ht2, Ht1. simpl. now rewrite <- !app_assoc.
Qed.

(** *** The requests of a drain *)

Lemma flush_if_full_frame_any P messages :
  (forall level m, P (EvLog level m)) ->
  (forall label op, P (EvMetric label op)) ->
  (forall events, P (EvPush events)) ->
  spec (flush_if_full messages) (frame P) anything.
Proof.
  intros Hlog Hmetric Hpush.
  unfold flush_if_full. destruct (_ >? _); [| now frame_step].
  unfold send_batch, log, metric. repeat frame_step; auto; exact I.
Qed.

Lemma requests_none evs : Forall (fun e => is_request e = None) evs -> requests evs = [].
Proof. apply pick_none. Qed.

Lemma requests_tail tail :
  tail = [] \/ (exists status reason, tail = [EvLog "error" (MsgRequestFailed status reason)]) ->
  requests tail = [].
Proof. intros [-> | (st & re & ->)]; reflexivity. Qed.

Lemma requests_cons parameters evs :
  requests (EvListAlerts parameters :: evs) = parameters :: requests evs.
Proof. reflexivity. Qed.

Lemma advance_cursor_state c s :
  snd (advance_cursor c s) = snd (get_next_events c s).
Proof.
  unfold advance_cursor, bind.
  destruct (get_next_events c s) as [[v|ex|] s1]; simpl; try reflexivity.
  now rewrite py_getattr_data_raises.
Qed.

(** The rest of a pass over a fetched page sends at most one request, the
    second fetch of line 146, built from the same cursor. *)
Lemma handle_page_asks batch c messages s :
  exists evs,
    trace (snd (handle_page batch c messages s)) = trace s ++ evs /\
    (requests evs = [] \/
     exists now, requests evs = [request_parameters configuration now c]).
Proof.
  unfold handle_page. destruct (is_None batch).
  { exists []. split; [now rewrite app_nil_r | now left]. }
  destruct (next_page batch) as [ex | marker] eqn:Hm.
  { rewrite (bind_lift_raised (inl ex) ex _ _ eq_refl). exists [].
    split; [now rewrite app_nil_r | now left]. }
  rewrite (bind_lift (inr marker) marker _ _ eq_refl). destruct (negb (is_None marker)).
  - assert (E : forall B (k : pyval * pyval -> M B),
               snd (bind (advance_cursor c) k s) = snd (get_next_events c s)).
    { intros B k. rewrite <- advance_cursor_state. unfold bind.
      pose proof (advance_cursor_never configuration w gt_other c s) as [_ Hn].
      destruct (advance_cursor c s) as [[a|ex|] s1]; simpl in *;
        [contradiction | reflexivity | reflexivity]. }
    rewrite E.
    destruct (get_next_events_trace configuration w c s) as (_ & tail & Ht & Htail).
    eexists. split; [exact Ht |]. right. eexists.
    now rewrite requests_cons, (requests_tail tail Htail).
  - rewrite bind_ret.
    assert (H : forall k : pyval -> M pass,
               (forall items, spec (k items)
                                (frame (fun e => is_request e = None)) anything) ->
               exists evs,
                 trace (snd (bind (lift (py_get batch "data" (PyList []))) k s))
                 = trace s ++ evs /\ requests evs = []).
    { intros k Hk.
      assert (Hs : spec (bind (lift (py_get batch "data" (PyList []))) k)
                     (frame (fun e => is_request e = None)) anything).
      { eapply frame_bind; [apply frame_lift_any |]. intros items _. apply Hk. }
      destruct (Hs s) as [[_ (evs & Ht & F)] _].
      exists evs. split; [exact Ht | now apply requests_none]. }
    destruct (H (fun items =>
                bind (observe_items items)
                  (fun _ => bind (lift (serialize_items dumps items))
                    (fun serialized => bind (flush_if_full (messages ++ serialized))
                      (fun messages0 => ret (Next (PyBool false) c messages0))))))
      as (evs & Ht & Hr).
    + intros items.
      eapply frame_bind; [apply observe_items_frame; reflexivity |]. intros _ _.
      eapply frame_bind; [apply frame_lift_any |]. intros serialized _.
      eapply frame_bind; [apply flush_if_full_frame_any; reflexivity |]. intros m _.
      now frame_step.
    + exists evs. split; [exact Ht | now left].
Qed.

Lemma requests_finish c messages :
  requests (EvCursorSaved c :: final_events configuration messages) = [].
Proof. destruct messages; reflexivity. Qed.

(** X15. A drain sends at most two requests, and both are built from the
    cursor that was loaded at its start (or ask for the last 300 seconds
    when there is none): the connector never asks the vendor for a page
    beyond the first. *)
Theorem drain_asks_for_the_first_page_only fuel s :
  let c := stored_cursor (context s) in
  let asked := requests (events_since s (snd (forward_next_batches (S fuel) s))) in
  (List.length asked <= 2)%nat /\
  Forall (fun parameters => exists now, parameters = request_parameters configuration now c)
    asked.
Proof.
  intros c asked.
  assert (H : exists evs,
             trace (snd (forward_next_batches (S fuel) s)) = trace s ++ evs /\
             (requests evs = [] \/
              (exists n1, requests evs = [request_parameters configuration n1 c]) \/
              (exists n1 n2, requests evs = [request_parameters configuration n1 c;
                                             request_parameters configuration n2 c]))).
  { destruct (w_running w (n_running s)) eqn:Hrun.
    - rewrite (forward_next_batches_unfold fuel s Hrun). fold c.
      destruct (get_next_events_trace configuration w c (snd (running w s)))
        as (_ & tail & Ht & Htail).
      change (trace (snd (running w s))) with (trace s) in Ht.
      pose proof (requests_tail tail Htail) as Hreq.
      destruct (get_next_events c (snd (running w s))) as [[batch|ex|] s2]; simpl in Ht.
      + destruct (handle_page_asks batch c [] s2) as (evs & Ht2 & Hr2).
        assert (Hboth : forall more, requests more = [] ->
                  requests (((EvListAlerts (request_parameters configuration
                                              (w_clock w (n_clock (snd (running w s)))) c)
                              :: tail) ++ evs) ++ more) = [] \/
                  (exists n1, requests (((EvListAlerts (request_parameters configuration
                                              (w_clock w (n_clock (snd (running w s)))) c)
                              :: tail) ++ evs) ++ more)
                              = [request_parameters configuration n1 c]) \/
                  (exists n1 n2, requests (((EvListAlerts (request_parameters configuration
                                              (w_clock w (n_clock (snd (running w s)))) c)
                              :: tail) ++ evs) ++ more)
                              = [request_parameters configuration n1 c;
                                 request_parameters configuration n2 c])).
        { intros more Hmore. unfold requests in *. rewrite !pick_app. simpl.
          rewrite Hreq, Hmore. simpl.
          destruct Hr2 as [-> | (n2 & ->)]; simpl; right; [left | right]; eauto. }
        destruct (handle_page batch c [] s2) as [[[|h c' m]|ex|] s3]; simpl in Ht2.
        * destruct (finish_run configuration w c [] s3) as (r & s4 & E & _ & Ht4 & _).
          rewrite E. simpl. eexists. split; [| apply (Hboth _ (requests_finish c []))].
          rewrite Ht4, Ht2, Ht. now rewrite <- !app_assoc.
        * destruct (finish_run configuration w c m s3) as (r & s4 & E & _ & Ht4 & _).
          rewrite E. simpl. eexists. split; [| apply (Hboth _ (requests_finish c m))].
          rewrite Ht4, Ht2, Ht. now rewrite <- !app_assoc.
        * simpl. eexists. split; [| apply (Hboth [] eq_refl)].
          rewrite Ht2, Ht. now rewrite app_nil_r, <- !app_assoc.
        * simpl. eexists. split; [| apply (Hboth [] eq_refl)].
          rewrite Ht2, Ht. now rewrite app_nil_r, <- !app_assoc.
      + simpl. eexists. split; [exact Ht |]. right. left. eexists.
        now rewrite requests_cons, Hreq.
      + simpl. eexists. split; [exact Ht |]. right. left. eexists.
        now rewrite requests_cons, Hreq.
    - rewrite (forward_next_batches_stopped (S fuel) s Hrun).
      destruct (finish_empty configuration w (stored_cursor (context s)) (snd (running w s)))
        as (s' & E & Ht).
      rewrite E. simpl. eexists. split; [exact Ht | now left]. }
  destruct H as (evs & Ht & Hr). unfold asked. rewrite (events_since_app _ _ _ Ht).
  destruct Hr as [-> | [(n1 & ->) | (n1 & n2 & ->)]]; simpl; split; try lia;
    repeat constructor; eauto.
Qed.

(** *** The cursor in the context *)

(** X16. The cursor that is written is the cursor that is read back, the
    other keys of the context are left as they are, and a context without
    the key reads as no cursor. *)
Theorem cursor_round_trip c s :
  cursor (snd (cursor_setter c s)) = (Normal c, snd (cursor_setter c s)) /\
  (forall key, key <> "cursor" ->
               context (snd (cursor_setter c s)) !! key = context s !! key) /\
  (context s !! "cursor" = None -> fst (cursor s) = Normal PyNone).
Proof.
  split; [| split].
  - unfold cursor, cursor_setter. simpl. now rewrite stored_cursor_insert.
  - intros key Hkey. simpl. now rewrite lookup_insert_ne.
  - intros Hmiss. unfold cursor, stored_cursor. simpl. now rewrite Hmiss.
Qed.

End Drains.

(** C10. A first page carries the marker of a next page, and the
    connector is told to stop while that page is fetched. The claim has
    the flag read after the page, the loop left, and the record of the
    page handed to the Forwarder before the drain returns. The code reads
    the flag once in a drain, whatever the vendor sends: at the first test
    of the loop, before the first request. After the page it sends a
    second request without reading the flag, stops at line 146 with
    [AttributeError], and the record of the page is not forwarded. *)
Theorem stop_between_pages_loses_the_batch :
  (forall cfg w dumps strptime_timestamp gt_other fuel s,
      n_running (snd (forward_next_batches cfg w dumps strptime_timestamp gt_other
                        (S fuel) s)) = S (n_running s)) /\
  let w := Sample.stopping_world Sample.two_pages in
  let entry := snd (time_time w (snd (running w Sample.start))) in
  let drain := Sample.forward 1000 w 1 entry in
  let scheduler := Sample.schedule 1000 w 3 1 Sample.start in
  w_running w (n_running entry) = true /\
  w_running w (S (n_running entry)) = false /\
  w_client w (n_client entry) = Sample.answer Sample.first_of_three /\
  serialize_items Sample.dumps (PyList [Sample.item "a" Sample.t1]) = inr ["alert a"] /\
  fst drain = Raised (AttributeError "data") /\
  n_running (snd drain) = S (n_running entry) /\
  List.length (requests (trace (snd drain))) = 2%nat /\
  pushes (trace (snd drain)) = [] /\
  fst scheduler = Raised (AttributeError "data") /\
  pushes (trace (snd scheduler)) = [].
Proof.
  split; [intros; apply drain_reads_the_flag_once |].
  repeat split; vm_compute; reflexivity.
Qed.

(** ** Further concrete runs *)


(** X6 on a connector that is told to stop before it starts. *)
Lemma run_logs_start_and_stop_witness :
  exists evs,
    events_since start (snd (whole_run 1000 stopped_world 3 1 start)) =
      EvLog "info" MsgStarted :: evs ++ [EvLog "info" MsgStopped] /\
    evs = [] /\ fst (whole_run 1000 stopped_world 3 1 start) = Normal tt.
Proof.
  destruct (run_logs_start_and_stop (configuration 1000) stopped_world dumps
              strptime_timestamp gt_other 3 1 start) as (evs & Ht & Hstop).
  exists evs. split; [exact Ht | exact (Hstop eq_refl)].
Defined.

(** X8 on a connector that is told to stop. *)
Lemma stopped_before_the_first_page_witness :
  exists s',
    forward 1000 stopped_world 1 (start_at "abc") = (Normal tt, s') /\
    events_since (start_at "abc") s' =
      [EvCursorSaved (PyStr "abc"); EvLog "info" MsgNoMessages].
Proof.
  exact (stopped_before_the_first_page (configuration 1000) stopped_world dumps
           strptime_timestamp gt_other 1 (start_at "abc") eq_refl).
Defined.

(** X9 on a vendor that answers with status 500. *)
Lemma failure_status_ends_the_drain_witness :
  exists s',
    forward 1000 (world_of [failure]) 1 (start_at "abc") = (Normal tt, s') /\
    events_since (start_at "abc") s' =
      [EvListAlerts [("limit", PyInt 1000); ("cursor", PyStr "abc")];
       EvLog "error" (MsgRequestFailed 500 "Internal Server Error");
       EvCursorSaved (PyStr "abc");
       EvLog "info" MsgNoMessages].
Proof.
  exact (failure_status_ends_the_drain (configuration 1000) (world_of [failure]) dumps
           strptime_timestamp gt_other 0 (start_at "abc")
           {| ok := false; status_code := 500; reason := "Internal Server Error";
              json := inl ValueError |}
           eq_refl eq_refl eq_refl).
Defined.

(** X10 on a client that raises an HTTP error. *)
Lemma fetch_exception_leaves_the_drain_witness :
  exists s',
    forward 1000 (raising_world HTTPError) 1 (start_at "abc") = (Raised HTTPError, s') /\
    context s' = context (start_at "abc") /\
    events_since (start_at "abc") s' =
      [EvListAlerts [("limit", PyInt 1000); ("cursor", PyStr "abc")]].
Proof.
  assert (Hf : fetch_raises (raising_world HTTPError) (start_at "abc") HTTPError)
    by (left; reflexivity).
  exact (fetch_exception_leaves_the_drain (configuration 1000) (raising_world HTTPError)
           dumps strptime_timestamp gt_other 0 (start_at "abc") HTTPError eq_refl Hf).
Defined.

(** X11 on a last page without records. *)
Lemma empty_page_forwards_nothing_witness :
  exists s',
    forward 1000 (world_of [answer no_records]) 1 (start_at "abc") = (Normal tt, s') /\
    events_since (start_at "abc") s' =
      [EvListAlerts [("limit", PyInt 1000); ("cursor", PyStr "abc")];
       EvCursorSaved (PyStr "abc");
       EvLog "info" MsgNoMessages].
Proof.
  assert (Hf : fetches (world_of [answer no_records]) (start_at "abc") no_records).
  { eexists. repeat split; reflexivity. }
  exact (empty_page_forwards_nothing (configuration 1000) (world_of [answer no_records])
           dumps strptime_timestamp gt_other 0 (start_at "abc") no_records
           eq_refl Hf eq_refl eq_refl eq_refl).
Defined.

(** X12 on a last page of two records. *)
Lemma last_page_is_forwarded_whole_witness :
  exists s',
    forward 1000 one_page 1 start = (Normal tt, s') /\
    Forall2 (fun x message => dumps x = inr message)
      [item "a" t2; item "b" t1] ["alert a"; "alert b"] /\
    pushes (events_since start s') = [["alert a"; "alert b"]] /\
    saves (events_since start s') = [PyNone].
Proof.
  assert (Hf : fetches one_page start two_records).
  { eexists. repeat split; reflexivity. }
  assert (Ho : observable strptime_timestamp gt_other (PyList [item "a" t2; item "b" t1])).
  { exists 2%nat. split; [reflexivity |]. right.
    exists (inject_Z 1704153600). vm_compute. reflexivity. }
  assert (Ha : forwarder_accepts one_page) by (intros n; reflexivity).
  exact (last_page_is_forwarded_whole (configuration 1000) one_page dumps
           strptime_timestamp gt_other 0 start two_records
           [item "a" t2; item "b" t1] ["alert a"; "alert b"]
           eq_refl Hf eq_refl eq_refl eq_refl Ho eq_refl Ha).
Defined.


(** X14 on a Forwarder that raises. *)
Lemma forwarder_failure_after_the_save_witness :
  exists s',
    forward 1000 (refusing_world [answer two_records] (OtherException "IntakeError")) 1
      (start_at "abc") = (Raised (OtherException "IntakeError"), s') /\
    saves (events_since (start_at "abc") s') = [PyStr "abc"] /\
    pushes (events_since (start_at "abc") s') = [["alert a"; "alert b"]] /\
    stored_cursor (context s') = PyStr "abc".
Proof.
  assert (Hf : fetches (refusing_world [answer two_records] (OtherException "IntakeError"))
                 (start_at "abc") two_records).
  { eexists. repeat split; reflexivity. }
  assert (Ho : observable strptime_timestamp gt_other (PyList [item "a" t2; item "b" t1])).
  { exists 2%nat. split; [reflexivity |]. right.
    exists (inject_Z 1704153600). vm_compute. reflexivity. }
  assert (Hne : ["alert a"; "alert b"] <> @nil string) by discriminate.
  assert (Hle : Z.of_nat (List.length ["alert a"; "alert b"])
                <= Z.max (chunk_size (configuration 1000)) 1000)
    by (vm_compute; discriminate).
  exact (forwarder_failure_after_the_save (configuration 1000)
           (refusing_world [answer two_records] (OtherException "IntakeError"))
           dumps strptime_timestamp gt_other 0 (start_at "abc") two_records
           (PyList [item "a" t2; item "b" t1]) ["alert a"; "alert b"]
           (OtherException "IntakeError")
           eq_refl Hf eq_refl eq_refl eq_refl Ho eq_refl Hne Hle (fun _ => eq_refl)).
Defined.
